(** * Discrepancy classification of the HTTP differential fuzzer

    A shallow embedding of [tools/diff_fuzz.py]: the request normaliser
    [normalize_request] and the pairwise classifier
    [categorize_discrepancy], together with the parts of the modules
    [http1], [targets] and [util] they import. *)

From Stdlib Require Import Ascii String.
From stdpp Require Import base decidable option list sorting strings gmap.

Local Open Scope string_scope.
Local Open Scope list_scope.
Local Open Scope nat_scope.

(** Python [bytes] values.  A [string] is a sequence of 8-bit characters
    and [String.compare] orders them as Python orders [bytes]:
    lexicographically on the unsigned byte values. *)
Abbreviation bytes := string.

(** ** Module [util] *)
Module util.

(** Modelled from the spec: [util.translate] is imported by the source but
    its definition is not part of it.  The spec describes the translation
    table as "a name-to-name header-rename mapping" and a name as being
    "translated through" it: a name with an entry is replaced by the
    entry, any other name is left as it is. *)
Definition translate (k : bytes) (tr : gmap bytes bytes) : bytes :=
  default k (tr !! k).

End util.
Export util.

(** ** Module [http1]: the message model *)
Module http1.

Record HTTPRequest : Type := mkHTTPRequest {
  method : bytes;
  uri : bytes;
  version : bytes;
  headers : list (bytes * bytes);
  body : bytes
}.

Record HTTPResponse : Type := mkHTTPResponse {
  code : bytes;
  response_headers : list (bytes * bytes);
  response_body : bytes
}.

Global Instance HTTPRequest_eq_dec : EqDecision HTTPRequest.
Proof. solve_decision. Defined.

Global Instance HTTPResponse_eq_dec : EqDecision HTTPResponse.
Proof. solve_decision. Defined.

Definition with_headers (r : HTTPRequest) (hs : list (bytes * bytes)) : HTTPRequest :=
  {| method := method r; uri := uri r; version := version r;
     headers := hs; body := body r |}.

(** [bytes.lower()]: the ASCII letters [A]..[Z] are mapped to [a]..[z],
    every other byte is kept. *)
Definition lower_byte (c : ascii) : ascii :=
  let n := N_of_ascii c in
  if ((65 <=? n) && (n <=? 90))%N then ascii_of_N (n + 32) else c.

Fixpoint lower (b : bytes) : bytes :=
  match b with
  | EmptyString => EmptyString
  | String c b' => String (lower_byte c) (lower b')
  end.

(** Header names are matched without regard to case, as the spec assumes
    for the profile's header sets and for the Host check. *)
Definition same_name (a b : bytes) : bool := bool_decide (lower a = lower b).

(** Modelled from the spec: [HTTPRequest.has_header] is a method of a class
    whose definition is not part of the source.  "The accepted request
    indeed has no Host header" is the negation of: some header of the
    request carries that name. *)
Definition has_header (r : HTTPRequest) (name : bytes) : bool :=
  existsb (λ h, same_name h.1 name) (headers r).

(** Modelled from the spec: [http1.remove_request_header] is imported by
    the source but not part of it.  The message model is of "immutable
    value types" with the header-list operation "remove-by-name": the
    result is a new request without the headers of that name ("remove all
    headers with that name from the request"). *)
Definition remove_request_header (r : HTTPRequest) (k : bytes) : HTTPRequest :=
  with_headers r (List.filter (λ h, negb (same_name h.1 k)) (headers r)).

(** Modelled from the spec: [http1.translate_request_header_names] is
    imported by the source but not part of it.  "rename-by-mapping":
    "rewrite every header name in the request through that mapping". *)
Definition translate_request_header_names
    (r : HTTPRequest) (tr : gmap bytes bytes) : HTTPRequest :=
  with_headers r (map (λ h, (translate h.1 tr, h.2)) (headers r)).

End http1.
Export http1.

(** ** Module [targets]: the server profile *)
Module targets.

(** Modelled from the spec: the class [targets.Server] is imported by the
    source but not part of it; the fields are those the source reads. *)
Record Server : Type := mkServer {
  name : bytes;
  added_headers : list bytes;
  removed_headers : list bytes;
  trashed_headers : list bytes;
  header_name_translation : gmap bytes bytes;
  doesnt_support_persistence : bool;
  allows_http_0_9 : bool;
  requires_length_in_post : bool;
  allows_missing_host_header : bool;
  method_whitelist : option (list bytes);
  method_character_blacklist : bytes
}.

End targets.
Export targets.

(** ** Ordering of headers: [list.sort] on a list of pairs of [bytes] *)

(** Python compares tuples lexicographically: the names first, and the
    values when the names are equal. *)
Definition header_leb (h1 h2 : bytes * bytes) : bool :=
  match String.compare h1.1 h2.1 with
  | Lt => true
  | Eq => String.leb h1.2 h2.2
  | Gt => false
  end.

Definition header_le : relation (bytes * bytes) := λ h1 h2, header_leb h1 h2.

Global Instance header_le_dec : RelDecision header_le.
Proof. intros h1 h2. unfold header_le. apply _. Defined.

(** The value of the list after [headers.sort()]. *)
Definition sort_headers (hs : list (bytes * bytes)) : list (bytes * bytes) :=
  merge_sort header_le hs.

(** ** [normalize_request]: the value it returns *)

(** [for k in ks: r1 = remove_request_header(r1, k)] *)
Definition remove_request_headers (r1 : HTTPRequest) (ks : list bytes) : HTTPRequest :=
  foldl remove_request_header r1 ks.

Definition normalize_request (r1 : HTTPRequest) (s1 s2 : Server) : HTTPRequest :=
  let r1 := remove_request_headers r1 (added_headers s1) in
  let r1 := remove_request_headers r1
              (map (λ k, translate k (header_name_translation s1)) (added_headers s2)) in
  let r1 := remove_request_headers r1
              (map (λ k, translate k (header_name_translation s1))
                   (removed_headers s2 ++ trashed_headers s2)
               ++ trashed_headers s1
               ++ removed_headers s1) in
  let r1 := if (0 <? size (header_name_translation s2))%nat
            then translate_request_header_names r1 (header_name_translation s2)
            else r1 in
  with_headers r1 (sort_headers (headers r1)).

(** ** [categorize_discrepancy]: the verdict *)

Inductive DiscrepancyType : Type :=
  | NO_DISCREPANCY
  | STATUS_DISCREPANCY
  | SUBTLE_DISCREPANCY
  | STREAM_DISCREPANCY.

Global Instance DiscrepancyType_eq_dec : EqDecision DiscrepancyType.
Proof. solve_decision. Defined.

(** What a server produced for one message of the stream. *)
Inductive message : Type :=
  | Request (r : HTTPRequest)
  | Response (r : HTTPResponse).

Global Instance message_eq_dec : EqDecision message.
Proof. solve_decision. Defined.

(** An entry of a result sequence, as the loop body sees it: a message, or
    Python's [None] (an absent entry, or the fill value of
    [itertools.zip_longest]). *)
Abbreviation entry := (option message).

(** [isinstance(r, HTTPRequest) and p(r)] *)
Definition request_and (r : entry) (p : HTTPRequest → bool) : bool :=
  match r with Some (Request q) => p q | _ => false end.

(** [isinstance(r, HTTPResponse) and p(r)] *)
Definition response_and (r : entry) (p : HTTPResponse → bool) : bool :=
  match r with Some (Response q) => p q | _ => false end.

Definition is_request (r : entry) : bool := request_and r (λ _, true).
Definition is_response (r : entry) : bool := response_and r (λ _, true).
Definition is_None (r : entry) : bool := match r with None => true | Some _ => false end.

(** [r.code == c] for a response [r] *)
Definition code_is (c : bytes) (r : HTTPResponse) : bool := bool_decide (code r = c).

(** [any(b in blacklist for b in m)] *)
Definition has_blacklisted_byte (blacklist m : bytes) : bool :=
  existsb (λ b, bool_decide (b ∈ list_ascii_of_string blacklist))
          (list_ascii_of_string m).

(** How one iteration of the inner loop ends. *)
Inductive outcome : Type :=
  | Next
  | Break
  | Return (d : DiscrepancyType).

(** Lines 86-160: one server rejected and the other accepted. *)
Definition compare_rejection (s1 s2 : Server) (r1 r2 : entry) : outcome :=
  if request_and r1 (λ q, bool_decide (version q = "0.9"))
       && is_response r2 && negb (allows_http_0_9 s2)
     || request_and r2 (λ q, bool_decide (version q = "0.9"))
       && is_response r1 && negb (allows_http_0_9 s2)
  then Break
  else if response_and r1 (code_is "411") && requires_length_in_post s1
       && request_and r2 (λ q, bool_decide (method q = "POST"))
       && negb (requires_length_in_post s2)
     || response_and r2 (code_is "411") && requires_length_in_post s2
       && request_and r1 (λ q, bool_decide (method q = "POST"))
       && negb (requires_length_in_post s1)
  then Break
  else if (is_None r1 || response_and r1 (code_is "400"))
       && negb (allows_missing_host_header s1)
       && is_request r2 && allows_missing_host_header s2
       && request_and r2 (λ q, negb (has_header q "host"))
     || (is_None r2 || response_and r2 (code_is "400"))
       && negb (allows_missing_host_header s2)
       && is_request r1 && allows_missing_host_header s1
       && request_and r1 (λ q, negb (has_header q "host"))
  then Break
  else if match method_whitelist s1 with
          | Some wl => is_response r1
                       && request_and r2 (λ q, negb (bool_decide (method q ∈ wl)))
          | None => false
          end
       || match method_whitelist s2 with
          | Some wl => is_response r2
                       && request_and r1 (λ q, negb (bool_decide (method q ∈ wl)))
          | None => false
          end
  then Break
  else if is_response r1
       && request_and r2 (λ q, has_blacklisted_byte (method_character_blacklist s1) (method q))
     || is_response r2
       && request_and r1 (λ q, has_blacklisted_byte (method_character_blacklist s2) (method q))
  then Break
  else Return STATUS_DISCREPANCY.

(** Lines 73-160: the checks made before two accepted requests are
    normalised.  [None] means that none of them ended the iteration.
    In line 79 one of [r1], [r2] is [None], so that [r1 is not r2] says
    that the other one is not. *)
Definition compare_unaccepted (s1 s2 : Server) (r1 r2 : entry) : option outcome :=
  if is_None r1 && response_and r2 (code_is "400")
     || is_None r2 && response_and r1 (code_is "400")
  then Some Break
  else if (is_None r1 || is_None r2) && negb (is_None r1 && is_None r2)
  then Some (Return STREAM_DISCREPANCY)
  else if is_request r1 && negb (is_request r2)
          || negb (is_request r1) && is_request r2
  then Some (compare_rejection s1 s2 r1 r2)
  else None.

(** The body of the inner loop, lines 72-172. *)
Definition compare_entries (s1 s2 : Server) (r1 r2 : entry) : outcome :=
  match compare_unaccepted s1 s2 r1 r2 with
  | Some o => o
  | None =>
      match r1, r2 with
      | Some (Request q1), Some (Request q2) =>
          if bool_decide (normalize_request q1 s1 s2 ≠ normalize_request q2 s2 s1)
          then Return SUBTLE_DISCREPANCY
          else Next
      | _, _ => Next
      end
  end.

(** [itertools.zip_longest(l1, l2)], whose fill value is [None]. *)
Fixpoint zip_longest {A} (l1 l2 : list (option A)) : list (option A * option A) :=
  match l1 with
  | [] => map (λ y, (None, y)) l2
  | x :: l1' =>
      match l2 with
      | [] => (x, None) :: map (λ x, (x, None)) l1'
      | y :: l2' => (x, y) :: zip_longest l1' l2'
      end
  end.

(** The inner loop over the positions of one pair of servers: [Some d]
    when it returns [d], [None] when it ends or breaks. *)
Fixpoint compare_positions (s1 s2 : Server) (rs : list (entry * entry))
    : option DiscrepancyType :=
  match rs with
  | [] => None
  | (r1, r2) :: rs' =>
      match compare_entries s1 s2 r1 r2 with
      | Next => compare_positions s1 s2 rs'
      | Break => None
      | Return d => Some d
      end
  end.

(** The body of the outer loop, lines 68-172. *)
Definition compare_pair (p1 p2 : list entry * Server) : option DiscrepancyType :=
  let '(pts1, s1) := p1 in
  let '(pts2, s2) := p2 in
  let '(pts1, pts2) :=
    if doesnt_support_persistence s1 || doesnt_support_persistence s2
    then (take 1 pts1, take 1 pts2)
    else (pts1, pts2) in
  compare_positions s1 s2 (zip_longest pts1 pts2).

(** [itertools.combinations(l, 2)] *)
Fixpoint combinations2 {A} (l : list A) : list (A * A) :=
  match l with
  | [] => []
  | x :: l' => map (pair x) l' ++ combinations2 l'
  end.

(** The outer loop and the final [return]. *)
Fixpoint compare_pairs (ps : list ((list entry * Server) * (list entry * Server)))
    : DiscrepancyType :=
  match ps with
  | [] => NO_DISCREPANCY
  | (p1, p2) :: ps' =>
      match compare_pair p1 p2 with
      | Some d => d
      | None => compare_pairs ps'
      end
  end.

Definition categorize_discrepancy
    (parse_trees : list (list entry)) (servers : list Server) : DiscrepancyType :=
  compare_pairs (combinations2 (zip parse_trees servers)).

(** ** The object store

    [normalize_request] ends with [r1.headers.sort()], which sorts the
    header list of the object [r1] is bound to at that point.  To see
    which object that is, messages live in a store and the program passes
    references to them. *)

Abbreviation ref := nat.
Abbreviation store := (list message).

(** Computations that read and write the store; [None] is a run that
    stops with an exception (a reference to no object, or an attribute
    the object does not have). *)
Definition M (A : Type) : Type := store → option (A * store).

Global Instance M_ret : MRet M := λ A a σ, Some (a, σ).
Global Instance M_bind : MBind M := λ A B f m σ,
  match m σ with
  | Some (a, σ') => f a σ'
  | None => None
  end.

(** The request a reference is bound to. *)
Definition load_request (r : ref) : M HTTPRequest := λ σ,
  match σ !! r with
  | Some (Request q) => Some (q, σ)
  | _ => None
  end.

(** A new object. *)
Definition alloc (m : message) : M ref := λ σ, Some (length σ, σ ++ [m]).

(** What a variable of the loop holds: a reference, or [None]. *)
Definition deref (r : option ref) : M entry := λ σ,
  match r with
  | None => Some (None, σ)
  | Some l => match σ !! l with
              | Some m => Some (Some m, σ)
              | None => None
              end
  end.

(** The helpers of [http1] build a new request and leave their argument
    as it is. *)
Definition remove_request_header_st (r : ref) (k : bytes) : M ref :=
  q ← load_request r; alloc (Request (remove_request_header q k)).

Definition translate_request_header_names_st (r : ref) (tr : gmap bytes bytes) : M ref :=
  q ← load_request r; alloc (Request (translate_request_header_names q tr)).

(** [r.headers.sort()] sorts the list of the object itself. *)
Definition sort_request (q : HTTPRequest) : HTTPRequest :=
  with_headers q (sort_headers (headers q)).

Definition update (r : ref) (m : message) : M unit := λ σ, Some ((), <[r := m]> σ).

Definition sort_headers_st (r : ref) : M unit :=
  q ← load_request r; update r (Request (sort_request q)).

Fixpoint remove_request_headers_st (r1 : ref) (ks : list bytes) : M ref :=
  match ks with
  | [] => mret r1
  | k :: ks' => r1 ← remove_request_header_st r1 k; remove_request_headers_st r1 ks'
  end.

(** [normalize_request] as it runs, lines 26-53. *)
Definition normalize_request_st (r1 : ref) (s1 s2 : Server) : M ref :=
  r1 ← remove_request_headers_st r1 (added_headers s1);
  r1 ← remove_request_headers_st r1
         (map (λ k, translate k (header_name_translation s1)) (added_headers s2));
  r1 ← remove_request_headers_st r1
         (map (λ k, translate k (header_name_translation s1))
              (removed_headers s2 ++ trashed_headers s2)
          ++ trashed_headers s1
          ++ removed_headers s1);
  r1 ← (if (0 <? size (header_name_translation s2))%nat
        then translate_request_header_names_st r1 (header_name_translation s2)
        else mret r1);
  _ ← sort_headers_st r1;
  mret r1.

(** The body of the inner loop as it runs: the checks of lines 73-160
    read the two objects, lines 162-172 normalise them. *)
Definition compare_entries_st (s1 s2 : Server) (r1 r2 : option ref) : M outcome :=
  e1 ← deref r1;
  e2 ← deref r2;
  match compare_unaccepted s1 s2 e1 e2 with
  | Some o => mret o
  | None =>
      match r1, e1, r2, e2 with
      | Some l1, Some (Request _), Some l2, Some (Request _) =>
          new_r1 ← normalize_request_st l1 s1 s2;
          new_r2 ← normalize_request_st l2 s2 s1;
          q1 ← load_request new_r1;
          q2 ← load_request new_r2;
          mret (if bool_decide (q1 ≠ q2) then Return SUBTLE_DISCREPANCY else Next)
      | _, _, _, _ => mret Next
      end
  end.

Fixpoint compare_positions_st (s1 s2 : Server) (rs : list (option ref * option ref))
    : M (option DiscrepancyType) :=
  match rs with
  | [] => mret None
  | (r1, r2) :: rs' =>
      o ← compare_entries_st s1 s2 r1 r2;
      match o with
      | Next => compare_positions_st s1 s2 rs'
      | Break => mret None
      | Return d => mret (Some d)
      end
  end.

Definition compare_pair_st (p1 p2 : list (option ref) * Server) : M (option DiscrepancyType) :=
  let '(pts1, s1) := p1 in
  let '(pts2, s2) := p2 in
  let '(pts1, pts2) :=
    if doesnt_support_persistence s1 || doesnt_support_persistence s2
    then (take 1 pts1, take 1 pts2)
    else (pts1, pts2) in
  compare_positions_st s1 s2 (zip_longest pts1 pts2).

Fixpoint compare_pairs_st
    (ps : list ((list (option ref) * Server) * (list (option ref) * Server)))
    : M DiscrepancyType :=
  match ps with
  | [] => mret NO_DISCREPANCY
  | (p1, p2) :: ps' =>
      d ← compare_pair_st p1 p2;
      match d with
      | Some d => mret d
      | None => compare_pairs_st ps'
      end
  end.

(** [categorize_discrepancy] as it runs, lines 63-173. *)
Definition categorize_discrepancy_st
    (parse_trees : list (list (option ref))) (servers : list Server) : M DiscrepancyType :=
  compare_pairs_st (combinations2 (zip parse_trees servers)).

(** ** Notions used to state the properties *)

(** The names [normalize_request r1 s1 s2] removes, in the order of its
    three loops. *)
Definition removal_keys (s1 s2 : Server) : list bytes :=
  added_headers s1
  ++ map (λ k, translate k (header_name_translation s1)) (added_headers s2)
  ++ (map (λ k, translate k (header_name_translation s1))
          (removed_headers s2 ++ trashed_headers s2)
      ++ trashed_headers s1
      ++ removed_headers s1).

(** A header of name [k] is removed by one of the three loops. *)
Definition removed_by (s1 s2 : Server) (k : bytes) : bool :=
  existsb (same_name k) (removal_keys s1 s2).

(** The entry of a result sequence at an index; past the end of the
    sequence it is absent. *)
Definition entry_at (i : nat) (pts : list entry) : entry := mjoin (pts !! i).

(** Two requests that differ at most in the order of their headers. *)
Definition same_request (q q' : HTTPRequest) : Prop :=
  method q = method q' ∧ uri q = uri q' ∧ version q = version q'
  ∧ body q = body q' ∧ headers q ≡ₚ headers q'.

(** Where [normalize_request], called with the reference [l] to the
    request [q] in the store [σ], has come to: [r1] is bound to [l'], the
    store is [σ'] and the request at [l'] is [q'].  Either nothing has
    happened, or [l'] is an object made since and the objects of [σ] are
    as they were. *)
Definition fresh (σ : store) (l' : ref) (σ' : store) : Prop :=
  length σ ≤ l' ∧ ∃ ext, σ' = σ ++ ext.

Definition moved (σ : store) (l : ref) (q : HTTPRequest)
    (l' : ref) (σ' : store) (q' : HTTPRequest) : Prop :=
  σ' !! l' = Some (Request q')
  ∧ ((l' = l ∧ σ' = σ ∧ q' = q) ∨ fresh σ l' σ').

(** Two messages, two entries that differ at most in the order of the
    headers of a request. *)
Definition same_message (m m' : message) : Prop :=
  match m, m' with
  | Request q, Request q' => same_request q q'
  | Response p, Response p' => p = p'
  | _, _ => False
  end.

Definition same_entry (e e' : entry) : Prop :=
  match e, e' with
  | None, None => True
  | Some m, Some m' => same_message m m'
  | _, _ => False
  end.

(** In the store [σ] the variable [r] holds the entry [e], up to the
    order of headers. *)
Definition holds (σ : store) (r : option ref) (e : entry) : Prop :=
  match r with
  | None => e = None
  | Some l => ∃ m, σ !! l = Some m ∧ same_entry (Some m) e
  end.

(** The store [σ'] has the objects of [σ], up to the order of headers. *)
Definition store_le (σ σ' : store) : Prop :=
  ∀ l m, σ !! l = Some m → ∃ m', σ' !! l = Some m' ∧ same_message m m'.

(** The sequences of references and the sequences of entries they hold,
    each with its profile. *)
Definition pair_holds (σ : store)
    (p : list (option ref) * Server) (p' : list entry * Server) : Prop :=
  Forall2 (holds σ) p.1 p'.1 ∧ p.2 = p'.2.

(** ** Worked examples *)

(** A profile without quirks. *)
Definition plain_server : Server :=
  {| name := "plain"; added_headers := []; removed_headers := [];
     trashed_headers := []; header_name_translation := ∅;
     doesnt_support_persistence := false; allows_http_0_9 := true;
     requires_length_in_post := false; allows_missing_host_header := true;
     method_whitelist := None; method_character_blacklist := "" |}.

Definition get_request (hs : list (bytes * bytes)) : HTTPRequest :=
  {| method := "GET"; uri := "/"; version := "1.1"; headers := hs; body := "" |}.

Definition status (c : bytes) : HTTPResponse :=
  {| code := c; response_headers := []; response_body := "" |}.

(** A profile that removes the header [b], and one that renames [a] to [b]. *)
Definition removes_b : Server :=
  {| name := "removes-b"; added_headers := []; removed_headers := ["b"];
     trashed_headers := []; header_name_translation := ∅;
     doesnt_support_persistence := false; allows_http_0_9 := true;
     requires_length_in_post := false; allows_missing_host_header := true;
     method_whitelist := None; method_character_blacklist := "" |}.

Definition renames_a_to_b : Server :=
  {| name := "renames-a"; added_headers := []; removed_headers := [];
     trashed_headers := []; header_name_translation := {[ "a" := "b" ]};
     doesnt_support_persistence := false; allows_http_0_9 := true;
     requires_length_in_post := false; allows_missing_host_header := true;
     method_whitelist := None; method_character_blacklist := "" |}.

Definition renames_a_to_b_to_c : Server :=
  {| name := "renames-a-b"; added_headers := []; removed_headers := [];
     trashed_headers := []; header_name_translation := {[ "a" := "b"; "b" := "c" ]};
     doesnt_support_persistence := false; allows_http_0_9 := true;
     requires_length_in_post := false; allows_missing_host_header := true;
     method_whitelist := None; method_character_blacklist := "" |}.

Definition renames_x_to_y : Server :=
  {| name := "renames-x"; added_headers := []; removed_headers := [];
     trashed_headers := []; header_name_translation := {[ "x" := "y" ]};
     doesnt_support_persistence := false; allows_http_0_9 := true;
     requires_length_in_post := false; allows_missing_host_header := true;
     method_whitelist := None; method_character_blacklist := "" |}.

Definition no_persistence : Server :=
  {| name := "no-persistence"; added_headers := []; removed_headers := [];
     trashed_headers := []; header_name_translation := ∅;
     doesnt_support_persistence := true; allows_http_0_9 := true;
     requires_length_in_post := false; allows_missing_host_header := true;
     method_whitelist := None; method_character_blacklist := "" |}.

(** A profile that does not allow HTTP/0.9, and one that requires the
    Host header. *)
Definition no_http_0_9 : Server :=
  {| name := "no-0.9"; added_headers := []; removed_headers := [];
     trashed_headers := []; header_name_translation := ∅;
     doesnt_support_persistence := false; allows_http_0_9 := false;
     requires_length_in_post := false; allows_missing_host_header := true;
     method_whitelist := None; method_character_blacklist := "" |}.

Definition requires_host : Server :=
  {| name := "requires-host"; added_headers := []; removed_headers := [];
     trashed_headers := []; header_name_translation := ∅;
     doesnt_support_persistence := false; allows_http_0_9 := true;
     requires_length_in_post := false; allows_missing_host_header := false;
     method_whitelist := None; method_character_blacklist := "" |}.

Definition http_0_9_request : HTTPRequest :=
  {| method := "GET"; uri := "/"; version := "0.9"; headers := []; body := "" |}.

Definition post_request (hs : list (bytes * bytes)) : HTTPRequest :=
  {| method := "POST"; uri := "/"; version := "1.1"; headers := hs; body := "" |}.

Definition requires_length : Server :=
  {| name := "requires-length"; added_headers := []; removed_headers := [];
     trashed_headers := []; header_name_translation := ∅;
     doesnt_support_persistence := false; allows_http_0_9 := true;
     requires_length_in_post := true; allows_missing_host_header := true;
     method_whitelist := None; method_character_blacklist := "" |}.

Definition adds_x_trace : Server :=
  {| name := "adds-x-trace"; added_headers := ["x-trace"]; removed_headers := [];
     trashed_headers := []; header_name_translation := ∅;
     doesnt_support_persistence := false; allows_http_0_9 := true;
     requires_length_in_post := false; allows_missing_host_header := true;
     method_whitelist := None; method_character_blacklist := "" |}.

Definition get_only : Server :=
  {| name := "get-only"; added_headers := []; removed_headers := [];
     trashed_headers := []; header_name_translation := ∅;
     doesnt_support_persistence := false; allows_http_0_9 := true;
     requires_length_in_post := false; allows_missing_host_header := true;
     method_whitelist := Some ["GET"]; method_character_blacklist := "" |}.

Definition no_at_sign : Server :=
  {| name := "no-at-sign"; added_headers := []; removed_headers := [];
     trashed_headers := []; header_name_translation := ∅;
     doesnt_support_persistence := false; allows_http_0_9 := true;
     requires_length_in_post := false; allows_missing_host_header := true;
     method_whitelist := None; method_character_blacklist := "@" |}.

Definition request_with_method (m : bytes) : HTTPRequest :=
  {| method := m; uri := "/"; version := "1.1"; headers := []; body := "" |}.

(** * Properties *)

(** ** The scenarios of the specification *)

Section scenarios.

Example scenario_1 :
  categorize_discrepancy
    [[Some (Request (get_request []))]; [Some (Request (get_request []))]]
    [plain_server; plain_server]
  = NO_DISCREPANCY.
Proof. by vm_compute. Qed.

Example scenario_2 :
  categorize_discrepancy [[Some (Response (status "400"))]; [None]]
    [plain_server; plain_server]
  = NO_DISCREPANCY.
Proof. by vm_compute. Qed.

Example scenario_3 :
  categorize_discrepancy
    [[Some (Request (post_request []))]; [Some (Response (status "411"))]]
    [plain_server; requires_length]
  = NO_DISCREPANCY.
Proof. by vm_compute. Qed.

Example scenario_4 :
  categorize_discrepancy
    [[Some (Request (get_request [("Host", "a")]))];
     [Some (Request (get_request [("Host", "b")]))]]
    [plain_server; plain_server]
  = SUBTLE_DISCREPANCY.
Proof. by vm_compute. Qed.

Example scenario_5 :
  categorize_discrepancy
    [[Some (Request (get_request [])); Some (Request (get_request []))];
     [Some (Request (get_request [])); None]]
    [plain_server; plain_server]
  = STREAM_DISCREPANCY.
Proof. by vm_compute. Qed.

Example scenario_6 :
  categorize_discrepancy
    [[Some (Request (get_request [("Host", "a"); ("X-Trace", "1")]))];
     [Some (Request (get_request [("Host", "a")]))]]
    [adds_x_trace; plain_server]
  = NO_DISCREPANCY.
Proof. by vm_compute. Qed.

(** The same run on a store: the two sequences are two references to one
    request, whose headers the run sorts in place. *)
Example scenario_shared_request :
  categorize_discrepancy_st [[Some 0]; [Some 0]] [plain_server; plain_server]
    [Request (get_request [("b", "1"); ("a", "2")])]
  = Some (NO_DISCREPANCY, [Request (get_request [("a", "2"); ("b", "1")])]).
Proof. by vm_compute. Qed.

End scenarios.

(** ** The order on headers *)

Section header_order.

Lemma compare_Lt_trans (a b c : bytes) :
  String.compare a b = Lt → String.compare b c = Lt → String.compare a c = Lt.
Proof.
  intros Hab Hbc.
  assert (Hle : String.le a c).
  { transitivity b; unfold String.le, String.leb; [rewrite Hab | rewrite Hbc]; done. }
  unfold String.le, String.leb in Hle.
  destruct (String.compare a c) eqn:Hac; [|done..].
  apply String.compare_eq_iff in Hac as ->.
  rewrite String.compare_antisym, Hbc in Hab. done.
Qed.

Global Instance header_le_total : Total header_le.
Proof.
  intros [k1 v1] [k2 v2]. unfold header_le, header_leb; simpl.
  rewrite (String.compare_antisym k2 k1).
  destruct (String.compare k1 k2) eqn:Hk; simpl; auto.
  destruct (String.leb_total v1 v2) as [-> | ->]; auto.
Qed.

Global Instance header_le_trans : Transitive header_le.
Proof.
  intros [k1 v1] [k2 v2] [k3 v3]. unfold header_le, header_leb; simpl.
  destruct (String.compare k1 k2) eqn:H12; [| |done].
  - apply String.compare_eq_iff in H12 as ->.
    destruct (String.compare k2 k3); [|done..].
    intros ??. by transitivity (v2 : bytes); unfold String.le.
  - destruct (String.compare k2 k3) eqn:H23; [| |done].
    + apply String.compare_eq_iff in H23 as <-. by rewrite H12.
    + by rewrite (compare_Lt_trans _ _ _ H12 H23).
Qed.

Global Instance header_le_antisym : AntiSymm (=) header_le.
Proof.
  intros [k1 v1] [k2 v2]. unfold header_le, header_leb; simpl.
  rewrite (String.compare_antisym k2 k1).
  destruct (String.compare k1 k2) eqn:Hk; simpl; [|done..].
  apply String.compare_eq_iff in Hk as ->.
  intros ?%Is_true_true ?%Is_true_true. f_equal. by apply String.leb_antisym.
Qed.

Lemma Sorted_sort_headers hs : Sorted header_le (sort_headers hs).
Proof. apply (Sorted_merge_sort header_le). Qed.

Lemma sort_headers_Permutation hs : sort_headers hs ≡ₚ hs.
Proof. apply (merge_sort_Permutation header_le). Qed.

(** The sorted list is determined by the headers it holds, whatever
    their order. *)
Lemma sort_headers_perm hs hs' : hs ≡ₚ hs' → sort_headers hs = sort_headers hs'.
Proof.
  intros Hp. apply (Sorted_unique header_le); [apply Sorted_sort_headers..|].
  by rewrite !sort_headers_Permutation.
Qed.

Lemma sort_headers_sorted hs : Sorted header_le hs → sort_headers hs = hs.
Proof.
  intros Hs. apply (Sorted_unique header_le); [apply Sorted_sort_headers | done |].
  apply sort_headers_Permutation.
Qed.

Lemma sort_headers_idemp hs : sort_headers (sort_headers hs) = sort_headers hs.
Proof. apply sort_headers_sorted, Sorted_sort_headers. Qed.

End header_order.

(** ** The value [normalize_request] returns *)

Section normalize_request_value.

Lemma with_headers_with_headers r hs hs' :
  with_headers (with_headers r hs) hs' = with_headers r hs'.
Proof. done. Qed.

Lemma with_headers_id r : with_headers r (headers r) = r.
Proof. by destruct r. Qed.

Lemma filter_fuse {A} (f g : A → bool) (l : list A) :
  List.filter g (List.filter f l) = List.filter (λ x, f x && g x) l.
Proof.
  induction l as [|x l IH]; simpl; [done|].
  destruct (f x); simpl; [destruct (g x)|]; by rewrite ?IH.
Qed.

Lemma filter_ext_bool {A} (f g : A → bool) (l : list A) :
  (∀ x, f x = g x) → List.filter f l = List.filter g l.
Proof. intros Hfg. induction l as [|x l IH]; simpl; by rewrite ?Hfg, ?IH. Qed.

Lemma filter_all {A} (f : A → bool) (l : list A) :
  (∀ x, x ∈ l → f x = true) → List.filter f l = l.
Proof.
  induction l as [|x l IH]; simpl; intros Hall; [done|].
  rewrite Hall by left. f_equal. apply IH. intros y Hy. apply Hall. by right.
Qed.

(** The loop [for k in ks: r1 = remove_request_header(r1, k)] keeps the
    headers whose name matches none of [ks]. *)
Lemma remove_request_headers_filter r ks :
  remove_request_headers r ks
  = with_headers r (List.filter (λ h, negb (existsb (same_name h.1) ks)) (headers r)).
Proof.
  revert r. induction ks as [|k ks IH]; intros r; simpl.
  - unfold remove_request_headers; simpl. by rewrite filter_all, with_headers_id.
  - unfold remove_request_headers in *; simpl. rewrite IH.
    unfold remove_request_header; simpl.
    rewrite with_headers_with_headers, filter_fuse. f_equal.
    apply filter_ext_bool. intros h. by rewrite negb_orb.
Qed.

Lemma remove_request_headers_app r ks ks' :
  remove_request_headers (remove_request_headers r ks) ks'
  = remove_request_headers r (ks ++ ks').
Proof. unfold remove_request_headers. by rewrite foldl_app. Qed.

(** [normalize_request] as one filter, one renaming and one sort. *)
Lemma normalize_request_eq r s1 s2 :
  normalize_request r s1 s2
  = with_headers r
      (sort_headers
         (let hs := List.filter (λ h, negb (removed_by s1 s2 h.1)) (headers r) in
          if (0 <? size (header_name_translation s2))%nat
          then map (λ h, (translate h.1 (header_name_translation s2), h.2)) hs
          else hs)).
Proof.
  unfold normalize_request.
  rewrite !remove_request_headers_app, remove_request_headers_filter.
  fold (removal_keys s1 s2). unfold removed_by.
  by destruct (0 <? size (header_name_translation s2))%nat.
Qed.

Lemma normalize_request_sorted r s1 s2 :
  Sorted header_le (headers (normalize_request r s1 s2)).
Proof. rewrite normalize_request_eq. apply Sorted_sort_headers. Qed.

End normalize_request_value.

(** ** Idempotence of normalisation *)

Section idempotence.

(** C4, as stated, fails: the second profile renames the header [a] to
    [b], a name the first profile removes.  The first normalisation keeps
    the header and renames it, the second one removes it. *)
Lemma normalize_request_not_idempotent :
  normalize_request
    (normalize_request (get_request [("a", "1")]) removes_b renames_a_to_b)
    removes_b renames_a_to_b
  ≠ normalize_request (get_request [("a", "1")]) removes_b renames_a_to_b.
Proof. by vm_compute. Qed.

(** A translation that renames a name it has produced is applied once
    more by a second normalisation, although nothing is removed. *)
Example normalize_request_translates_again :
  headers (normalize_request (get_request [("a", "1")]) plain_server renames_a_to_b_to_c)
  = [("b", "1")]
  ∧ headers (normalize_request
               (normalize_request (get_request [("a", "1")]) plain_server renames_a_to_b_to_c)
               plain_server renames_a_to_b_to_c)
    = [("c", "1")].
Proof. split; by vm_compute. Qed.

(** C4, amended: normalising twice gives what normalising once gives when
    every header name of the normalised request matches none of the names
    to remove and is left as it is by the second profile's translation. *)
Theorem normalize_request_idempotent_stable (r : HTTPRequest) (s1 s2 : Server) :
  Forall (λ h, removed_by s1 s2 h.1 = false
               ∧ translate h.1 (header_name_translation s2) = h.1)
         (headers (normalize_request r s1 s2)) →
  normalize_request (normalize_request r s1 s2) s1 s2 = normalize_request r s1 s2.
Proof.
  intros Hstable.
  rewrite (normalize_request_eq (normalize_request r s1 s2)).
  pose proof (normalize_request_sorted r s1 s2) as Hsorted.
  set (n := normalize_request r s1 s2) in *.
  rewrite Forall_forall in Hstable.
  assert (Hkeep : List.filter (λ h, negb (removed_by s1 s2 h.1)) (headers n) = headers n).
  { apply filter_all. intros h Hh. by destruct (Hstable h Hh) as [-> _]. }
  assert (Hname : map (λ h, (translate h.1 (header_name_translation s2), h.2)) (headers n)
                  = headers n).
  { rewrite <- (map_id (headers n)) at 2. apply map_ext_in.
    intros [k v] Hh%list_elem_of_In. destruct (Hstable _ Hh) as [_ Hk]; simpl in *.
    by rewrite Hk. }
  cbv zeta. rewrite Hkeep, Hname.
  destruct (0 <? size (header_name_translation s2))%nat;
    by rewrite sort_headers_sorted, with_headers_id.
Qed.

Lemma normalize_request_idempotent_stable_witness :
  normalize_request
    (normalize_request (get_request [("x", "1"); ("c", "3"); ("b", "2")])
       removes_b renames_x_to_y)
    removes_b renames_x_to_y
  = normalize_request (get_request [("x", "1"); ("c", "3"); ("b", "2")])
      removes_b renames_x_to_y.
Proof.
  apply normalize_request_idempotent_stable.
  vm_compute headers. repeat (constructor; [by vm_compute|]). constructor.
Defined.

End idempotence.

(** ** The classifier *)

Section classifier.

Lemma combinations2_short {A} (l : list A) : length l < 2 → combinations2 l = [].
Proof. destruct l as [|x [|y l]]; simpl; [done | done | lia]. Qed.

(** With two servers there is one pair. *)
Lemma categorize_discrepancy_two (pts1 pts2 : list entry) (s1 s2 : Server) :
  categorize_discrepancy [pts1; pts2] [s1; s2]
  = default NO_DISCREPANCY (compare_pair (pts1, s1) (pts2, s2)).
Proof. reflexivity. Qed.

(** C10: with fewer than two servers there is no pair to compare: the
    verdict is [NO_DISCREPANCY], and the run ends with it without reading
    the store, whatever the references are. *)
Theorem categorize_discrepancy_fewer_than_two
    (parse_trees : list (list entry)) (refs : list (list (option ref)))
    (servers : list Server) (σ : store) :
  length servers < 2 →
  categorize_discrepancy parse_trees servers = NO_DISCREPANCY
  ∧ categorize_discrepancy_st refs servers σ = Some (NO_DISCREPANCY, σ).
Proof.
  intros Hlen. unfold categorize_discrepancy, categorize_discrepancy_st.
  rewrite !combinations2_short; [done|..]; rewrite length_zip; lia.
Qed.

Lemma categorize_discrepancy_fewer_than_two_witness :
  categorize_discrepancy [[Some (Request (get_request []))]] [plain_server] = NO_DISCREPANCY
  ∧ categorize_discrepancy_st [[Some 7]] [plain_server] [] = Some (NO_DISCREPANCY, []).
Proof. apply categorize_discrepancy_fewer_than_two. simpl. lia. Defined.

(** C5, as stated, fails: three result sequences and two profiles give a
    verdict, that of the first two sequences. *)
Lemma categorize_discrepancy_length_mismatch_verdict :
  length [[Some 0]; [Some 1]; [Some 0]] ≠ length [plain_server; plain_server]
  ∧ categorize_discrepancy_st [[Some 0]; [Some 1]; [Some 0]] [plain_server; plain_server]
      [Request (get_request []); Response (status "500")]
    = Some (STATUS_DISCREPANCY, [Request (get_request []); Response (status "500")]).
Proof. split; [simpl; lia | by vm_compute]. Qed.

(** C5, amended: [zip] pairs sequences and profiles by position and stops
    at the end of the shorter list; what the longer list has beyond that
    is ignored, and the verdict is that of the lists so shortened. *)
Theorem categorize_discrepancy_zip_truncates
    (parse_trees : list (list entry)) (refs : list (list (option ref)))
    (servers : list Server) :
  categorize_discrepancy parse_trees servers
  = categorize_discrepancy (take (length servers) parse_trees)
                           (take (length parse_trees) servers)
  ∧ categorize_discrepancy_st refs servers
    = categorize_discrepancy_st (take (length servers) refs) (take (length refs) servers).
Proof.
  unfold categorize_discrepancy, categorize_discrepancy_st.
  by rewrite !zip_with_take_both.
Qed.

(** Both entries are what one and the same server produced. *)
Lemma compare_entries_refl s r : compare_entries s s r r = Next.
Proof.
  destruct r as [[q|p]|]; unfold compare_entries, compare_unaccepted; simpl;
    rewrite ?andb_negb_r, ?andb_false_r; simpl; [|done..].
  by rewrite bool_decide_eq_false_2 by (intros H; by apply H).
Qed.

Lemma zip_longest_diag {A} (l : list (option A)) :
  zip_longest l l = map (λ x, (x, x)) l.
Proof. induction l as [|x l IH]; simpl; by rewrite ?IH. Qed.

Lemma compare_positions_refl s (l : list entry) :
  compare_positions s s (zip_longest l l) = None.
Proof.
  rewrite zip_longest_diag.
  induction l as [|x l IH]; simpl; [done|]. by rewrite compare_entries_refl.
Qed.

Lemma compare_pair_refl (seq : list entry) (prof : Server) :
  compare_pair (seq, prof) (seq, prof) = None.
Proof.
  unfold compare_pair.
  destruct (doesnt_support_persistence prof || doesnt_support_persistence prof);
    by rewrite compare_positions_refl.
Qed.

(** C7: a server never disagrees with itself. *)
Theorem categorize_discrepancy_reflexive (seq : list entry) (prof : Server) :
  categorize_discrepancy [seq; seq] [prof; prof] = NO_DISCREPANCY.
Proof. by rewrite categorize_discrepancy_two, compare_pair_refl. Qed.

(** Only the first position is compared when the sequences are cut. *)
Lemma compare_positions_take_1 s1 s2 (pts1 pts2 : list entry) :
  compare_positions s1 s2 (zip_longest (take 1 pts1) (take 1 pts2))
  = match compare_entries s1 s2 (entry_at 0 pts1) (entry_at 0 pts2) with
    | Return d => Some d
    | _ => None
    end.
Proof.
  destruct pts1 as [|r1 pts1], pts2 as [|r2 pts2]; simpl;
    rewrite ?take_0; unfold entry_at; simpl; try done;
    by match goal with
       | |- context [compare_entries ?a ?b ?x ?y] => destruct (compare_entries a b x y)
       end.
Qed.

(** C6: when one of the two servers does not support persistence, the
    verdict of the pair is determined by the entries at index 0. *)
Theorem truncation_rule (pts1 pts2 pts1' pts2' : list entry) (s1 s2 : Server) :
  doesnt_support_persistence s1 = true ∨ doesnt_support_persistence s2 = true →
  entry_at 0 pts1 = entry_at 0 pts1' →
  entry_at 0 pts2 = entry_at 0 pts2' →
  compare_pair (pts1, s1) (pts2, s2) = compare_pair (pts1', s1) (pts2', s2)
  ∧ categorize_discrepancy [pts1; pts2] [s1; s2]
    = categorize_discrepancy [pts1'; pts2'] [s1; s2].
Proof.
  intros Hp H1 H2.
  assert (Hpair : compare_pair (pts1, s1) (pts2, s2) = compare_pair (pts1', s1) (pts2', s2)).
  { unfold compare_pair.
    replace (doesnt_support_persistence s1 || doesnt_support_persistence s2) with true
      by (symmetry; apply orb_true_iff; done).
    by rewrite !compare_positions_take_1, H1, H2. }
  split; [done|]. by rewrite !categorize_discrepancy_two, Hpair.
Qed.

Lemma truncation_rule_witness :
  compare_pair ([Some (Request (get_request [])); Some (Response (status "500"))],
                plain_server)
               ([Some (Request (get_request []))], no_persistence)
  = compare_pair ([Some (Request (get_request []))], plain_server)
                 ([Some (Request (get_request [])); None; Some (Response (status "404"))],
                  no_persistence)
  ∧ categorize_discrepancy
      [[Some (Request (get_request [])); Some (Response (status "500"))];
       [Some (Request (get_request []))]]
      [plain_server; no_persistence]
    = categorize_discrepancy
        [[Some (Request (get_request []))];
         [Some (Request (get_request [])); None; Some (Response (status "404"))]]
        [plain_server; no_persistence].
Proof. apply truncation_rule; [right|..]; reflexivity. Defined.

Lemma is_response_not_request (r : entry) : is_response r = true → is_request r = false.
Proof. by destruct r as [[]|]. Qed.

(** Without a request at a position, the position ends the comparison of
    the pair, goes on to the next one, or is a stream discrepancy. *)
Lemma compare_entries_no_request s1 s2 (r1 r2 : entry) :
  is_request r1 = false → is_request r2 = false →
  compare_entries s1 s2 r1 r2 = Next
  ∨ compare_entries s1 s2 r1 r2 = Break
  ∨ compare_entries s1 s2 r1 r2 = Return STREAM_DISCREPANCY.
Proof.
  destruct r1 as [[q1|p1]|], r2 as [[q2|p2]|]; try done; intros _ _;
    unfold compare_entries, compare_unaccepted; simpl;
    try destruct (code_is _ _); simpl; auto.
Qed.

Lemma Forall_zip_longest {A} (P : option A → Prop) (l1 l2 : list (option A)) :
  P None → Forall P l1 → Forall P l2 →
  Forall (λ p, P p.1 ∧ P p.2) (zip_longest l1 l2).
Proof.
  intros HN H1. revert l2. induction H1 as [|x l1 Hx H1 IH]; intros l2 H2; simpl.
  - induction H2; simpl; constructor; auto.
  - destruct H2 as [|y l2 Hy H2]; constructor; simpl; auto.
    clear IH. induction H1; simpl; constructor; auto.
Qed.

Lemma compare_positions_no_request s1 s2 (rs : list (entry * entry)) :
  Forall (λ p, is_request p.1 = false ∧ is_request p.2 = false) rs →
  compare_positions s1 s2 rs = None
  ∨ compare_positions s1 s2 rs = Some STREAM_DISCREPANCY.
Proof.
  induction 1 as [|[r1 r2] rs [H1 H2] _ IH]; simpl; [auto|].
  destruct (compare_entries_no_request s1 s2 r1 r2 H1 H2) as [-> | [-> | ->]]; auto.
Qed.

(** C8: two responses at a position let the loop go on to the next
    position, whatever their status codes; and two sequences of responses
    never give [STATUS_DISCREPANCY]. *)
Theorem both_rejected_continue (s1 s2 : Server) (p1 p2 : HTTPResponse)
    (rs : list (entry * entry)) (pts1 pts2 : list entry) :
  Forall (λ r, is_response r = true) pts1 →
  Forall (λ r, is_response r = true) pts2 →
  compare_entries s1 s2 (Some (Response p1)) (Some (Response p2)) = Next
  ∧ compare_positions s1 s2 ((Some (Response p1), Some (Response p2)) :: rs)
    = compare_positions s1 s2 rs
  ∧ compare_pair (pts1, s1) (pts2, s2) ≠ Some STATUS_DISCREPANCY
  ∧ categorize_discrepancy [pts1; pts2] [s1; s2] ≠ STATUS_DISCREPANCY.
Proof.
  intros H1 H2.
  assert (Hnext : compare_entries s1 s2 (Some (Response p1)) (Some (Response p2)) = Next)
    by done.
  assert (Hpair : compare_pair (pts1, s1) (pts2, s2) = None
                  ∨ compare_pair (pts1, s1) (pts2, s2) = Some STREAM_DISCREPANCY).
  { unfold compare_pair.
    destruct (doesnt_support_persistence s1 || doesnt_support_persistence s2);
      apply compare_positions_no_request,
            (Forall_zip_longest (λ r, is_request r = false)); try done;
      try apply Forall_take;
      (eapply Forall_impl; [eassumption | apply is_response_not_request]). }
  split; [done|]. split; [done|]. split; [by destruct Hpair as [-> | ->]|].
  rewrite categorize_discrepancy_two. by destruct Hpair as [-> | ->].
Qed.

Lemma both_rejected_continue_witness :
  compare_entries plain_server plain_server
    (Some (Response (status "400"))) (Some (Response (status "500"))) = Next
  ∧ compare_positions plain_server plain_server
      [(Some (Response (status "400")), Some (Response (status "500")));
       (Some (Response (status "404")), None)]
    = compare_positions plain_server plain_server [(Some (Response (status "404")), None)]
  ∧ compare_pair ([Some (Response (status "400")); Some (Response (status "404"))],
                  plain_server)
                 ([Some (Response (status "500"))], plain_server)
    ≠ Some STATUS_DISCREPANCY
  ∧ categorize_discrepancy
      [[Some (Response (status "400")); Some (Response (status "404"))];
       [Some (Response (status "500"))]]
      [plain_server; plain_server]
    ≠ STATUS_DISCREPANCY.
Proof. apply both_rejected_continue; repeat constructor. Defined.

(** The two orders of a pair are told apart by the HTTP/0.9 check alone:
    between two profiles that agree on HTTP/0.9 the loop body does not
    depend on the order. *)
Lemma compare_entries_swap s1 s2 (r1 r2 : entry) :
  allows_http_0_9 s1 = allows_http_0_9 s2 →
  compare_entries s1 s2 r1 r2 = compare_entries s2 s1 r2 r1.
Proof.
  intros H09.
  destruct r1 as [[q1|p1]|], r2 as [[q2|p2]|];
    unfold compare_entries, compare_unaccepted, compare_rejection; simpl;
    rewrite ?H09, ?andb_false_r, ?orb_false_r; simpl; try done.
  - do 2 case_bool_decide; congruence.
  - destruct (method_whitelist s1), (method_whitelist s2); by rewrite ?orb_false_r.
  - destruct (method_whitelist s1), (method_whitelist s2); by rewrite ?orb_false_r.
Qed.

Lemma zip_longest_swap {A} (l1 l2 : list (option A)) :
  zip_longest l2 l1 = map (λ p, (p.2, p.1)) (zip_longest l1 l2).
Proof.
  revert l2. induction l1 as [|x l1 IH]; intros [|y l2]; simpl; try done.
  - f_equal. rewrite map_map. by apply map_ext.
  - f_equal. rewrite map_map. by apply map_ext.
  - by rewrite IH.
Qed.

Lemma compare_pair_swap (pts1 pts2 : list entry) s1 s2 :
  allows_http_0_9 s1 = allows_http_0_9 s2 →
  compare_pair (pts1, s1) (pts2, s2) = compare_pair (pts2, s2) (pts1, s1).
Proof.
  intros H09. unfold compare_pair.
  rewrite (orb_comm (doesnt_support_persistence s2)).
  assert (Hswap : ∀ l1 l2 : list entry,
    compare_positions s1 s2 (zip_longest l1 l2)
    = compare_positions s2 s1 (zip_longest l2 l1)).
  { intros l1 l2. rewrite (zip_longest_swap l1 l2).
    induction (zip_longest l1 l2) as [|[r1 r2] rs IH]; simpl; [done|].
    rewrite (compare_entries_swap s1 s2 r1 r2 H09), IH. done. }
  destruct (doesnt_support_persistence s1 || doesnt_support_persistence s2);
    apply Hswap.
Qed.

(** X14: between two profiles that agree on HTTP/0.9 the verdict does not
    depend on the order of the two servers. *)
Lemma categorize_discrepancy_swap (pts1 pts2 : list entry) s1 s2 :
  allows_http_0_9 s1 = allows_http_0_9 s2 →
  categorize_discrepancy [pts1; pts2] [s1; s2]
  = categorize_discrepancy [pts2; pts1] [s2; s1].
Proof. intros H09. by rewrite !categorize_discrepancy_two, compare_pair_swap. Qed.

(** C1 fails: a request parsed as HTTP/0.9 by a server that allows it,
    against a rejection by a server that does not.  With the rejecting
    server second the HTTP/0.9 check ends the comparison; with the
    rejecting server first the check reads the profile of the accepting
    server, and the verdict is [STATUS_DISCREPANCY]. *)
Theorem categorize_discrepancy_not_symmetric :
  categorize_discrepancy
    [[Some (Request http_0_9_request)]; [Some (Response (status "500"))]]
    [plain_server; no_http_0_9]
  = NO_DISCREPANCY
  ∧ categorize_discrepancy
      [[Some (Response (status "500"))]; [Some (Request http_0_9_request)]]
      [no_http_0_9; plain_server]
    = STATUS_DISCREPANCY.
Proof. split; by vm_compute. Qed.

(** C2 fails: the second half of the HTTP/0.9 check (line 96) reads
    [s2.allows_http_0_9], the profile of the server that accepted, where
    the rejecting server is [s1].  The position is not discrepant when the
    rejecting server is the second one, and is a status discrepancy when
    it is the first one. *)
Theorem http_0_9_check_reads_second_profile :
  compare_entries plain_server no_http_0_9
    (Some (Request http_0_9_request)) (Some (Response (status "500")))
  = Break
  ∧ compare_entries no_http_0_9 plain_server
      (Some (Response (status "500"))) (Some (Request http_0_9_request))
    = Return STATUS_DISCREPANCY.
Proof. split; by vm_compute. Qed.

(** An absent entry against an accepted request is a stream discrepancy,
    whatever the profiles are. *)
Lemma absent_against_request s1 s2 (q : HTTPRequest) :
  compare_entries s1 s2 None (Some (Request q)) = Return STREAM_DISCREPANCY
  ∧ compare_entries s1 s2 (Some (Request q)) None = Return STREAM_DISCREPANCY.
Proof. done. Qed.

(** C9 fails: with an absent entry on the side that requires the Host
    header, line 79 returns [STREAM_DISCREPANCY] before the Host check of
    lines 117-130 is reached, although that check, taken alone, accepts
    the position. *)
Theorem missing_host_check_unreachable_for_absent :
  compare_rejection requires_host plain_server None (Some (Request (get_request [])))
  = Break
  ∧ compare_entries requires_host plain_server None (Some (Request (get_request [])))
    = Return STREAM_DISCREPANCY
  ∧ categorize_discrepancy [[]; [Some (Request (get_request []))]]
      [requires_host; plain_server]
    = STREAM_DISCREPANCY.
Proof. repeat split; by vm_compute. Qed.

End classifier.

(** ** [normalize_request] and the store *)

Section store.

Lemma bind_run {A B} (m : M A) (f : A → M B) (σ σ' : store) (a : A) :
  m σ = Some (a, σ') → (m ≫= f) σ = f a σ'.
Proof. unfold mbind, M_bind. by intros ->. Qed.

Lemma load_request_run l q σ :
  σ !! l = Some (Request q) → load_request l σ = Some (q, σ).
Proof. unfold load_request. by intros ->. Qed.

Lemma moved_start σ l q : σ !! l = Some (Request q) → moved σ l q l σ q.
Proof. intros Hl. split; [done|]. by left. Qed.

(** A helper of [http1] makes a new object. *)
Lemma fresh_alloc σ l q l1 σ1 q1 m :
  moved σ l q l1 σ1 q1 → fresh σ (length σ1) (σ1 ++ [m]).
Proof.
  intros [_ [(_ & -> & _) | (Hlen & ext & ->)]].
  - split; [done|]. by exists [m].
  - split; [rewrite length_app; lia|]. exists (ext ++ [m]). by rewrite app_assoc.
Qed.

Lemma moved_alloc σ l q l1 σ1 q1 q2 :
  moved σ l q l1 σ1 q1 →
  moved σ l q (length σ1) (σ1 ++ [Request q2]) q2.
Proof.
  intros Hm. split.
  - by rewrite lookup_app_r, Nat.sub_diag by done.
  - right. by eapply fresh_alloc.
Qed.

(** The loop [for k in ks: r1 = remove_request_header(r1, k)]: after one
    iteration or more [r1] is bound to a new object. *)
Lemma remove_request_headers_st_moved ks σ l q l1 σ1 q1 :
  moved σ l q l1 σ1 q1 →
  ∃ l2 σ2, remove_request_headers_st l1 ks σ1 = Some (l2, σ2)
           ∧ moved σ l q l2 σ2 (remove_request_headers q1 ks)
           ∧ (ks ≠ [] ∨ fresh σ l1 σ1 → fresh σ l2 σ2).
Proof.
  revert l1 σ1 q1. induction ks as [|k ks IH]; intros l1 σ1 q1 Hm; simpl.
  - exists l1, σ1. split; [done|]. split; [done|]. by intros [?|?].
  - unfold remove_request_header_st.
    rewrite (bind_run _ _ σ1 (σ1 ++ [Request (remove_request_header q1 k)]) (length σ1));
      last first.
    { by rewrite (bind_run _ _ σ1 σ1 q1) by (apply load_request_run, Hm). }
    destruct (IH _ _ (remove_request_header q1 k)
                 (moved_alloc _ _ _ _ _ _ (remove_request_header q1 k) Hm))
      as (l2 & σ2 & Hrun & Hm2 & Hf2).
    exists l2, σ2. split; [done|]. split; [done|].
    intros _. apply Hf2. right. by eapply fresh_alloc.
Qed.

Lemma translate_request_header_names_st_moved tr σ l q l1 σ1 q1 :
  moved σ l q l1 σ1 q1 →
  ∃ l2 σ2, translate_request_header_names_st l1 tr σ1 = Some (l2, σ2)
           ∧ moved σ l q l2 σ2 (translate_request_header_names q1 tr)
           ∧ fresh σ l2 σ2.
Proof.
  intros Hm. unfold translate_request_header_names_st.
  rewrite (bind_run _ _ σ1 σ1 q1) by (apply load_request_run, Hm).
  eexists _, _. split; [done|]. split; [by eapply moved_alloc | by eapply fresh_alloc].
Qed.

Lemma sort_headers_st_run l q σ :
  σ !! l = Some (Request q) →
  sort_headers_st l σ = Some ((), <[l := Request (sort_request q)]> σ).
Proof.
  intros Hl. unfold sort_headers_st.
  by rewrite (bind_run _ _ σ σ q) by by apply load_request_run.
Qed.

Lemma fresh_insert σ l' σ' m : fresh σ l' σ' → fresh σ l' (<[l' := m]> σ').
Proof.
  intros (Hlen & ext & ->). split; [done|]. eexists. by apply insert_app_r_alt.
Qed.

(** What a call of [normalize_request] does: it returns a reference to
    the value [normalize_request] describes.  Either it has sorted the
    headers of its argument in place and returns the argument, or it
    returns a new object and has left the objects of the store alone; it is
    a new object as soon as a profile names a header to remove or the
    second profile translates header names. *)
Lemma normalize_request_st_spec l s1 s2 σ q :
  σ !! l = Some (Request q) →
  ∃ l' σ',
    normalize_request_st l s1 s2 σ = Some (l', σ')
    ∧ σ' !! l' = Some (Request (normalize_request q s1 s2))
    ∧ ((l' = l ∧ σ' = <[l := Request (sort_request q)]> σ
        ∧ normalize_request q s1 s2 = sort_request q)
       ∨ fresh σ l' σ')
    ∧ (removal_keys s1 s2 ≠ [] ∨ 0 < size (header_name_translation s2) →
       fresh σ l' σ').
Proof.
  intros Hl. unfold normalize_request_st, normalize_request, removal_keys.
  set (ks1 := added_headers s1).
  set (ks2 := map (λ k, translate k (header_name_translation s1)) (added_headers s2)).
  set (ks3 := map (λ k, translate k (header_name_translation s1))
                  (removed_headers s2 ++ trashed_headers s2)
              ++ trashed_headers s1 ++ removed_headers s1).
  destruct (remove_request_headers_st_moved ks1 σ l q l σ q)
    as (l1 & σ1 & Hrun1 & Hm1 & Hf1); [by apply moved_start|].
  rewrite (bind_run _ _ _ _ _ Hrun1).
  destruct (remove_request_headers_st_moved ks2 σ l q l1 σ1 _ Hm1)
    as (l2 & σ2 & Hrun2 & Hm2 & Hf2).
  rewrite (bind_run _ _ _ _ _ Hrun2).
  destruct (remove_request_headers_st_moved ks3 σ l q l2 σ2 _ Hm2)
    as (l3 & σ3 & Hrun3 & Hm3 & Hf3).
  rewrite (bind_run _ _ _ _ _ Hrun3).
  match type of Hm3 with moved _ _ _ _ _ ?x => set (q3 := x) in * end.
  assert (∃ l4 σ4,
    (if 0 <? size (header_name_translation s2)
     then translate_request_header_names_st l3 (header_name_translation s2)
     else mret l3) σ3 = Some (l4, σ4)
    ∧ moved σ l q l4 σ4
        (if 0 <? size (header_name_translation s2)
         then translate_request_header_names q3 (header_name_translation s2)
         else q3)
    ∧ (0 < size (header_name_translation s2) ∨ fresh σ l3 σ3 → fresh σ l4 σ4))
    as (l4 & σ4 & Hrun4 & Hm4 & Hf4).
  { destruct (0 <? size (header_name_translation s2)) eqn:Hsize.
    - destruct (translate_request_header_names_st_moved
                  (header_name_translation s2) σ l q l3 σ3 q3 Hm3)
        as (l4 & σ4 & ? & ? & ?).
      by exists l4, σ4.
    - exists l3, σ3. split; [done|]. split; [done|].
      apply Nat.ltb_ge in Hsize. intros [?|?]; [lia | done]. }
  rewrite (bind_run _ _ _ _ _ Hrun4).
  set (q4 := if 0 <? size _ then _ else _) in *.
  destruct Hm4 as [Hl4 Hm4].
  rewrite (bind_run _ _ _ _ _ (sort_headers_st_run _ _ _ Hl4)).
  eexists _, _. split; [done|].
  assert (l4 < length σ4) by (by eapply lookup_lt_Some).
  split; [by rewrite list_lookup_insert_eq|].
  split.
  - destruct Hm4 as [(-> & -> & Hq) | Hfresh].
    + left. by rewrite Hq.
    + right. by apply fresh_insert.
  - intros Hquirk. apply fresh_insert, Hf4.
    destruct Hquirk as [Hks | ?]; [right | by left].
    apply Hf3. destruct (decide (ks3 = [])) as [E3|]; [right | by left].
    apply Hf2. destruct (decide (ks2 = [])) as [E2|]; [right | by left].
    apply Hf1. left. intros E1. apply Hks. by rewrite E1, E2, E3.
Qed.

(** Between profiles that name no header to remove and translate no
    header name, the call sorts the headers of its argument in place. *)
Lemma normalize_request_st_in_place l s1 s2 σ q :
  σ !! l = Some (Request q) →
  removal_keys s1 s2 = [] →
  size (header_name_translation s2) = 0 →
  normalize_request_st l s1 s2 σ = Some (l, <[l := Request (sort_request q)]> σ).
Proof.
  intros Hl Hks Hsize. unfold removal_keys in Hks.
  apply app_eq_nil in Hks as [E1 [E2 E3]%app_eq_nil].
  unfold normalize_request_st. rewrite E1, E2, E3, Hsize. simpl.
  unfold mbind, M_bind, mret, M_ret. by rewrite (sort_headers_st_run l q σ Hl).
Qed.

(** X9: in every other case the call returns a new object, and every
    object of the store, the argument among them, is as it was. *)
Lemma normalize_request_st_fresh l s1 s2 σ q :
  σ !! l = Some (Request q) →
  removal_keys s1 s2 ≠ [] ∨ 0 < size (header_name_translation s2) →
  ∃ l' ext,
    normalize_request_st l s1 s2 σ = Some (l', σ ++ ext)
    ∧ length σ ≤ l'
    ∧ (σ ++ ext) !! l' = Some (Request (normalize_request q s1 s2))
    ∧ ∀ i m, σ !! i = Some m → (σ ++ ext) !! i = Some m.
Proof.
  intros Hl Hquirk.
  destruct (normalize_request_st_spec l s1 s2 σ q Hl)
    as (l' & σ' & Hrun & Hl' & _ & Hfresh).
  destruct (Hfresh Hquirk) as (Hlen & ext & ->).
  exists l', ext. split; [done|]. split; [done|]. split; [done|].
  intros i m Hi. rewrite lookup_app_l; [done | by eapply lookup_lt_Some].
Qed.

(** C3 fails: between two profiles without quirks no loop of
    [normalize_request] runs, [r1] is still the argument when
    [r1.headers.sort()] is reached, and the header list of the caller's
    request is sorted in place: the reference returned is the argument, and
    the request in the store has changed. *)
Theorem normalize_request_sorts_argument_in_place :
  normalize_request_st 0 plain_server plain_server
    [Request (get_request [("b", "1"); ("a", "2")])]
  = Some (0, [Request (get_request [("a", "2"); ("b", "1")])]).
Proof. by vm_compute. Qed.

(** *** Requests up to the order of their headers *)

Global Instance same_request_equiv : Equivalence same_request.
Proof.
  split.
  - by intros q.
  - intros q q' (?&?&?&?&?). by unfold same_request.
  - intros q q' q'' (?&?&?&?&?) (?&?&?&?&?).
    unfold same_request. repeat split; by etransitivity.
Qed.

Global Instance same_message_equiv : Equivalence same_message.
Proof.
  split.
  - by intros [q|p]; simpl.
  - intros [q|p] [q'|p']; simpl; try done; by symmetry.
  - intros [q|p] [q'|p'] [q''|p'']; simpl; try done; intros ??; by etransitivity.
Qed.

Global Instance same_entry_equiv : Equivalence same_entry.
Proof.
  split.
  - by intros [m|]; simpl.
  - intros [m|] [m'|]; simpl; try done; by symmetry.
  - intros [m|] [m'|] [m''|]; simpl; try done; intros ??; by etransitivity.
Qed.

Global Instance store_le_preorder : PreOrder store_le.
Proof.
  split.
  - intros σ l m Hl. by exists m.
  - intros σ σ' σ'' H1 H2 l m Hl.
    destruct (H1 l m Hl) as (m' & Hl' & Hm').
    destruct (H2 l m' Hl') as (m'' & Hl'' & Hm'').
    exists m''. split; [done|]. by etransitivity.
Qed.

Lemma holds_store_le σ σ' r e : store_le σ σ' → holds σ r e → holds σ' r e.
Proof.
  intros Hle. destruct r as [l|]; simpl; [|done].
  intros (m & Hl & Hm). destruct (Hle l m Hl) as (m' & Hl' & Hm').
  exists m'. split; [done|].
  destruct e as [m0|]; simpl in *; [|done].
  etransitivity; [symmetry; exact Hm' | exact Hm].
Qed.

Lemma sort_request_same q : same_request q (sort_request q).
Proof.
  unfold same_request; simpl. repeat split. symmetry. apply sort_headers_Permutation.
Qed.

Lemma sort_request_sorted q : Sorted header_le (headers q) → sort_request q = q.
Proof.
  intros Hs. unfold sort_request. by rewrite sort_headers_sorted, with_headers_id.
Qed.

Lemma filter_Permutation_bool {A} (f : A → bool) (l l' : list A) :
  l ≡ₚ l' → List.filter f l ≡ₚ List.filter f l'.
Proof.
  induction 1 as [|x l l' _ IH|x y l|l l' l'' _ IH1 _ IH2]; simpl.
  - done.
  - destruct (f x); by rewrite IH.
  - destruct (f x), (f y); try done. apply perm_swap.
  - by etransitivity.
Qed.

(** The normalised request does not depend on the order of the headers
    of the request. *)
Lemma normalize_request_same q q' s1 s2 :
  same_request q q' → normalize_request q s1 s2 = normalize_request q' s1 s2.
Proof.
  intros (Hm & Hu & Hv & Hb & Hp). rewrite !normalize_request_eq.
  unfold with_headers. rewrite Hm, Hu, Hv, Hb. f_equal.
  apply sort_headers_perm. cbv zeta.
  destruct (0 <? size (header_name_translation s2))%nat;
    [apply Permutation_map|]; by apply filter_Permutation_bool.
Qed.

Lemma has_header_same q q' k : same_request q q' → has_header q k = has_header q' k.
Proof.
  intros (_ & _ & _ & _ & Hp). unfold has_header.
  induction Hp as [|x l l' _ IH|x y l|l l' l'' _ IH1 _ IH2]; simpl.
  - done.
  - by rewrite IH.
  - by rewrite !orb_assoc, (orb_comm (same_name y.1 k)).
  - by etransitivity.
Qed.

Lemma compare_unaccepted_same s1 s2 (e1 e1' e2 e2' : entry) :
  same_entry e1 e1' → same_entry e2 e2' →
  compare_unaccepted s1 s2 e1 e2 = compare_unaccepted s1 s2 e1' e2'.
Proof.
  destruct e1 as [[q1|p1]|], e1' as [[q1'|p1']|]; simpl; try done;
    destruct e2 as [[q2|p2]|], e2' as [[q2'|p2']|]; simpl; try done;
    intros H1 H2; subst; try done;
    unfold compare_unaccepted, compare_rejection; simpl;
    repeat match goal with
           | H : same_request ?q ?q' |- _ =>
               rewrite (has_header_same q q' "host" H);
               destruct H as (-> & _ & -> & _ & _)
           end; done.
Qed.

Lemma compare_entries_same s1 s2 (e1 e1' e2 e2' : entry) :
  same_entry e1 e1' → same_entry e2 e2' →
  compare_entries s1 s2 e1 e2 = compare_entries s1 s2 e1' e2'.
Proof.
  intros H1 H2. unfold compare_entries.
  rewrite (compare_unaccepted_same s1 s2 e1 e1' e2 e2' H1 H2).
  destruct (compare_unaccepted s1 s2 e1' e2'); [done|].
  destruct e1 as [[q1|p1]|], e1' as [[q1'|p1']|]; simpl in H1; try done;
    destruct e2 as [[q2|p2]|], e2' as [[q2'|p2']|]; simpl in H2; try done.
  by rewrite (normalize_request_same q1 q1'), (normalize_request_same q2 q2').
Qed.

(** *** The run of the classifier and its verdict *)

(** A call of [normalize_request] leaves every object of the store as it
    was, up to the order of the headers of its argument, and leaves a
    request whose headers are sorted exactly as it was. *)
Lemma normalize_request_st_sim l s1 s2 σ q :
  σ !! l = Some (Request q) →
  ∃ l' σ',
    normalize_request_st l s1 s2 σ = Some (l', σ')
    ∧ σ' !! l' = Some (Request (normalize_request q s1 s2))
    ∧ store_le σ σ'
    ∧ (∀ n qn, σ !! n = Some (Request qn) → Sorted header_le (headers qn) →
               σ' !! n = Some (Request qn)).
Proof.
  intros Hl.
  destruct (normalize_request_st_spec l s1 s2 σ q Hl)
    as (l' & σ' & Hrun & Hl' & Hcase & _).
  exists l', σ'. split; [done|]. split; [done|].
  assert (l < length σ) by (by eapply lookup_lt_Some).
  destruct Hcase as [(-> & -> & _) | (Hlen & ext & ->)]; split.
  - intros n m Hn. destruct (decide (n = l)) as [-> | Hne].
    + rewrite list_lookup_insert_eq by done. eexists. split; [done|].
      rewrite Hl in Hn. injection Hn as <-. apply sort_request_same.
    + rewrite list_lookup_insert_ne by done. by exists m.
  - intros n qn Hn Hsorted. destruct (decide (n = l)) as [-> | Hne].
    + rewrite list_lookup_insert_eq by done.
      rewrite Hl in Hn. injection Hn as <-. by rewrite sort_request_sorted.
    + by rewrite list_lookup_insert_ne.
  - intros n m Hn. exists m. split; [|done].
    rewrite lookup_app_l; [done | by eapply lookup_lt_Some].
  - intros n qn Hn _. rewrite lookup_app_l; [done | by eapply lookup_lt_Some].
Qed.

Lemma deref_holds σ r e :
  holds σ r e →
  ∃ e', deref r σ = Some (e', σ) ∧ same_entry e' e
        ∧ match r with
          | Some l => ∃ m, e' = Some m ∧ σ !! l = Some m
          | None => e' = None
          end.
Proof.
  destruct r as [l|]; simpl.
  - intros (m & Hl & Hm). exists (Some m). rewrite Hl. eauto.
  - intros ->. by exists None.
Qed.

(** One iteration of the inner loop ends as [compare_entries] says. *)
Lemma compare_entries_st_sim s1 s2 r1 r2 e1 e2 σ :
  holds σ r1 e1 → holds σ r2 e2 →
  ∃ σ', compare_entries_st s1 s2 r1 r2 σ = Some (compare_entries s1 s2 e1 e2, σ')
        ∧ store_le σ σ'.
Proof.
  intros H1 H2.
  destruct (deref_holds σ r1 e1 H1) as (e1' & Hd1 & Hs1 & Hr1).
  destruct (deref_holds σ r2 e2 H2) as (e2' & Hd2 & Hs2 & Hr2).
  unfold compare_entries_st.
  rewrite (bind_run _ _ _ _ _ Hd1), (bind_run _ _ _ _ _ Hd2).
  rewrite <- (compare_entries_same s1 s2 e1' e1 e2' e2 Hs1 Hs2).
  unfold compare_entries.
  destruct (compare_unaccepted s1 s2 e1' e2') as [o|]; [by exists σ|].
  destruct r1 as [l1|]; [destruct Hr1 as (m1 & -> & Hl1) | subst e1'; by exists σ].
  destruct m1 as [q1|p1]; [|by exists σ].
  destruct r2 as [l2|]; [destruct Hr2 as (m2 & -> & Hl2) | subst e2'; by exists σ].
  destruct m2 as [q2|p2]; [|by exists σ].
  destruct (normalize_request_st_sim l1 s1 s2 σ q1 Hl1)
    as (n1 & σ1 & Hrun1 & Hn1 & Hle1 & _).
  destruct (Hle1 l2 _ Hl2) as ([q2'|?] & Hl2' & Hsame2); [|done].
  destruct (normalize_request_st_sim l2 s2 s1 σ1 q2' Hl2')
    as (n2 & σ2 & Hrun2 & Hn2 & Hle2 & Hkeep2).
  pose proof (Hkeep2 n1 _ Hn1 (normalize_request_sorted q1 s1 s2)) as Hn1'.
  rewrite (bind_run _ _ _ _ _ Hrun1), (bind_run _ _ _ _ _ Hrun2).
  rewrite (bind_run _ _ _ _ _ (load_request_run _ _ _ Hn1')).
  rewrite (bind_run _ _ _ _ _ (load_request_run _ _ _ Hn2)).
  exists σ2. split; [|by etransitivity].
  by rewrite (normalize_request_same q2 q2' s2 s1 Hsame2).
Qed.

Lemma zip_longest_holds σ (rs1 rs2 : list (option ref)) (es1 es2 : list entry) :
  Forall2 (holds σ) rs1 es1 → Forall2 (holds σ) rs2 es2 →
  Forall2 (λ rp ep, holds σ rp.1 ep.1 ∧ holds σ rp.2 ep.2)
          (zip_longest rs1 rs2) (zip_longest es1 es2).
Proof.
  intros H1. revert rs2 es2.
  induction H1 as [|r1 e1 rs1 es1 Hr1 H1 IH]; intros rs2 es2 H2; simpl.
  - induction H2; simpl; constructor; by simpl.
  - destruct H2 as [|r2 e2 rs2 es2 Hr2 H2]; constructor; simpl; auto.
    clear IH. induction H1; simpl; constructor; by simpl.
Qed.

(** The inner loop. *)
Lemma compare_positions_st_sim s1 s2 rs es σ :
  Forall2 (λ rp ep, holds σ rp.1 ep.1 ∧ holds σ rp.2 ep.2) rs es →
  ∃ σ', compare_positions_st s1 s2 rs σ = Some (compare_positions s1 s2 es, σ')
        ∧ store_le σ σ'.
Proof.
  intros Hrs. revert es σ Hrs.
  induction rs as [|[r1 r2] rs IH]; intros es σ Hrs;
    inversion Hrs as [|? [e1 e2] ? es' [H1 H2] Hrs']; subst; simpl in *.
  - by exists σ.
  - destruct (compare_entries_st_sim s1 s2 r1 r2 e1 e2 σ H1 H2) as (σ1 & Hrun & Hle).
    rewrite (bind_run _ _ _ _ _ Hrun).
    destruct (compare_entries s1 s2 e1 e2); [|by exists σ1..].
    destruct (IH es' σ1) as (σ2 & Hrun2 & Hle2).
    { eapply Forall2_impl; [exact Hrs'|]. intros ?? [??].
      split; by eapply holds_store_le. }
    exists σ2. split; [done | by etransitivity].
Qed.

(** The body of the outer loop. *)
Lemma compare_pair_st_sim σ (rs1 rs2 : list (option ref)) (es1 es2 : list entry) s1 s2 :
  Forall2 (holds σ) rs1 es1 → Forall2 (holds σ) rs2 es2 →
  ∃ σ', compare_pair_st (rs1, s1) (rs2, s2) σ
        = Some (compare_pair (es1, s1) (es2, s2), σ')
        ∧ store_le σ σ'.
Proof.
  intros H1 H2. unfold compare_pair_st, compare_pair.
  destruct (doesnt_support_persistence s1 || doesnt_support_persistence s2);
    apply compare_positions_st_sim, zip_longest_holds;
    done || by apply Forall2_take.
Qed.

Lemma zip_holds σ (refs : list (list (option ref))) (parse_trees : list (list entry))
    (servers : list Server) :
  Forall2 (Forall2 (holds σ)) refs parse_trees →
  Forall2 (pair_holds σ) (zip refs servers) (zip parse_trees servers).
Proof.
  intros H. revert servers.
  induction H as [|r e refs parse_trees Hre H IH]; intros [|s servers]; simpl;
    constructor; by auto.
Qed.

Lemma combinations2_holds {A B} (R : A → B → Prop) (l : list A) (l' : list B) :
  Forall2 R l l' →
  Forall2 (λ p p', R p.1 p'.1 ∧ R p.2 p'.2) (combinations2 l) (combinations2 l').
Proof.
  induction 1 as [|x y l l' Hxy H IH]; simpl; [constructor|].
  apply Forall2_app; [|done].
  clear IH. induction H; simpl; constructor; by auto.
Qed.

Lemma pair_holds_store_le σ σ' p p' :
  store_le σ σ' → pair_holds σ p p' → pair_holds σ' p p'.
Proof.
  intros Hle [Hp Hs]. split; [|done].
  eapply Forall2_impl; [exact Hp|]. intros ???. by eapply holds_store_le.
Qed.

(** The outer loop. *)
Lemma compare_pairs_st_sim σ ps ps' :
  Forall2 (λ p p', pair_holds σ p.1 p'.1 ∧ pair_holds σ p.2 p'.2) ps ps' →
  ∃ σ', compare_pairs_st ps σ = Some (compare_pairs ps', σ') ∧ store_le σ σ'.
Proof.
  intros Hps. revert ps' σ Hps.
  induction ps as [|[[rs1 s1] [rs2 s2]] ps IH]; intros ps' σ Hps.
  { inversion Hps; subst. by exists σ. }
  inversion Hps as [|? [[es1 s1'] [es2 s2']] ? ps'' [[H1 E1] [H2 E2]] Hps'].
  simpl in H1, E1, H2, E2; subst; cbn [compare_pairs_st compare_pairs].
  - destruct (compare_pair_st_sim σ rs1 rs2 es1 es2 s1' s2' H1 H2) as (σ1 & Hrun & Hle).
    rewrite (bind_run _ _ _ _ _ Hrun).
    destruct (compare_pair (es1, s1') (es2, s2')) as [d|]; [by exists σ1|].
    destruct (IH ps'' σ1) as (σ2 & Hrun2 & Hle2).
    { eapply Forall2_impl; [exact Hps'|]. intros ?? [??].
      split; by eapply pair_holds_store_le. }
    exists σ2. split; [done | by etransitivity].
Qed.

(** X7: the run of [categorize_discrepancy] on references ends, and its
    verdict is [categorize_discrepancy] of the entries they hold: sorting
    headers in place on the way changes no verdict. *)
Theorem categorize_discrepancy_st_verdict σ
    (refs : list (list (option ref))) (parse_trees : list (list entry))
    (servers : list Server) :
  Forall2 (Forall2 (holds σ)) refs parse_trees →
  ∃ σ', categorize_discrepancy_st refs servers σ
        = Some (categorize_discrepancy parse_trees servers, σ')
        ∧ store_le σ σ'.
Proof.
  intros H. apply compare_pairs_st_sim.
  apply (combinations2_holds (pair_holds σ)). by apply zip_holds.
Qed.

(** A sequence given twice: the two sequences are the same objects, and
    the run, which may sort their headers in place, finds no discrepancy. *)
Corollary categorize_discrepancy_st_same_sequence σ
    (seq : list (option ref)) (es : list entry) (prof : Server) :
  Forall2 (holds σ) seq es →
  ∃ σ', categorize_discrepancy_st [seq; seq] [prof; prof] σ = Some (NO_DISCREPANCY, σ').
Proof.
  intros H.
  destruct (compare_pairs_st_sim σ
              (combinations2 (zip [seq; seq] [prof; prof]))
              (combinations2 (zip [es; es] [prof; prof])))
    as (σ' & Hrun & _).
  { apply (combinations2_holds (pair_holds σ)), zip_holds. by repeat constructor. }
  exists σ'. unfold categorize_discrepancy_st. rewrite Hrun.
  change (compare_pairs _) with (categorize_discrepancy [es; es] [prof; prof]).
  by rewrite categorize_discrepancy_two, compare_pair_refl.
Qed.

End store.

(** * Further properties of the classifier *)

(** ** What one position can give *)

Section positions.

(** The loop body by the kind of its two entries. *)
Lemma compare_entries_table s1 s2 (r1 r2 : entry) :
  compare_entries s1 s2 r1 r2
  = match r1, r2 with
    | Some (Request q1), Some (Request q2) =>
        if bool_decide (normalize_request q1 s1 s2 ≠ normalize_request q2 s2 s1)
        then Return SUBTLE_DISCREPANCY else Next
    | Some (Request _), Some (Response _) | Some (Response _), Some (Request _) =>
        compare_rejection s1 s2 r1 r2
    | Some (Response _), Some (Response _) | None, None => Next
    | None, Some (Response p) | Some (Response p), None =>
        if code_is "400" p then Break else Return STREAM_DISCREPANCY
    | None, Some (Request _) | Some (Request _), None => Return STREAM_DISCREPANCY
    end.
Proof.
  destruct r1 as [[q1|p1]|], r2 as [[q2|p2]|];
    unfold compare_entries, compare_unaccepted; simpl; try done;
    by destruct (code_is _ _).
Qed.

Lemma compare_rejection_cases s1 s2 (r1 r2 : entry) :
  compare_rejection s1 s2 r1 r2 = Break
  ∨ compare_rejection s1 s2 r1 r2 = Return STATUS_DISCREPANCY.
Proof.
  unfold compare_rejection.
  repeat match goal with |- context [if ?b then _ else _] => destruct b end; auto.
Qed.

(** X1: a position is a subtle discrepancy exactly when both servers
    accepted and the two requests differ after normalisation. *)
Theorem subtle_discrepancy_iff s1 s2 (r1 r2 : entry) :
  compare_entries s1 s2 r1 r2 = Return SUBTLE_DISCREPANCY
  ↔ ∃ q1 q2, r1 = Some (Request q1) ∧ r2 = Some (Request q2)
             ∧ normalize_request q1 s1 s2 ≠ normalize_request q2 s2 s1.
Proof.
  rewrite compare_entries_table.
  destruct r1 as [[q1|p1]|], r2 as [[q2|p2]|];
    try (split; [|by intros (? & ? & ? & ? & ?)]);
    try (by destruct (compare_rejection_cases s1 s2 (Some (Request q1)) (Some (Response p2)))
              as [-> | ->]);
    try (by destruct (compare_rejection_cases s1 s2 (Some (Response p1)) (Some (Request q2)))
              as [-> | ->]);
    try done; try by destruct (code_is _ _).
  case_bool_decide; split; try done.
  - intros _. by exists q1, q2.
  - intros (? & ? & ? & ? & ?). simplify_eq.
Qed.

(** X2: a position is a stream discrepancy exactly when one of the two
    entries is absent, the other is not, and the other is not a response
    of status 400. *)
Theorem stream_discrepancy_iff s1 s2 (r1 r2 : entry) :
  compare_entries s1 s2 r1 r2 = Return STREAM_DISCREPANCY
  ↔ is_None r1 ≠ is_None r2
    ∧ response_and r1 (code_is "400") = false
    ∧ response_and r2 (code_is "400") = false.
Proof.
  rewrite compare_entries_table.
  destruct r1 as [[q1|p1]|], r2 as [[q2|p2]|]; simpl;
    try (split; [|by intros (? & ? & ?)]);
    try (by destruct (compare_rejection_cases s1 s2 (Some (Request q1)) (Some (Response p2)))
              as [-> | ->]);
    try (by destruct (compare_rejection_cases s1 s2 (Some (Response p1)) (Some (Request q2)))
              as [-> | ->]);
    try done; try by case_bool_decide.
  all: destruct (code_is _ _); split; try done; by intros (? & ? & ?).
Qed.

(** X3: a status discrepancy needs one server that accepted and one that
    answered with a response; an absent entry never gives it. *)
Theorem status_discrepancy_inv s1 s2 (r1 r2 : entry) :
  compare_entries s1 s2 r1 r2 = Return STATUS_DISCREPANCY →
  (is_request r1 = true ∧ is_response r2 = true)
  ∨ (is_response r1 = true ∧ is_request r2 = true).
Proof.
  rewrite compare_entries_table.
  destruct r1 as [[q1|p1]|], r2 as [[q2|p2]|]; simpl; auto;
    try done; try (by case_bool_decide); by destruct (code_is _ _).
Qed.

Lemma status_discrepancy_inv_witness :
  (is_request (Some (Request (get_request []))) = true
   ∧ is_response (Some (Response (status "500"))) = true)
  ∨ (is_response (Some (Request (get_request []))) = true
     ∧ is_request (Some (Response (status "500"))) = true).
Proof.
  apply (status_discrepancy_inv plain_server plain_server). by vm_compute.
Defined.

End positions.

(** ** The exceptions to a status discrepancy *)

Section exceptions.

(** Every test of [compare_rejection] that holds ends the iteration with
    [break]: once the goal shows one that holds, the others are tried in
    both ways. *)
Ltac some_test_holds :=
  simpl;
  repeat match goal with
         | |- context [if ?b then _ else _] => destruct b; [done|]
         end;
  done.

Ltac open_rejection :=
  rewrite compare_entries_table; unfold compare_rejection, code_is; simpl.

(** X16: a 411 from a server that requires a length in POST requests,
    against a POST request accepted by a server that does not, ends the
    comparison of the pair, in either order of the two servers. *)
Theorem length_required_exception (rej acc : Server) (p : HTTPResponse) (q : HTTPRequest) :
  code p = "411" → requires_length_in_post rej = true →
  method q = "POST" → requires_length_in_post acc = false →
  compare_entries rej acc (Some (Response p)) (Some (Request q)) = Break
  ∧ compare_entries acc rej (Some (Request q)) (Some (Response p)) = Break.
Proof.
  intros Hc Hrej Hm Hacc.
  split; open_rejection;
    rewrite Hrej, Hacc, (bool_decide_eq_true_2 _ Hc), (bool_decide_eq_true_2 _ Hm);
    some_test_holds.
Qed.

Lemma length_required_exception_witness :
  compare_entries requires_length plain_server
    (Some (Response (status "411"))) (Some (Request (post_request []))) = Break
  ∧ compare_entries plain_server requires_length
      (Some (Request (post_request []))) (Some (Response (status "411"))) = Break.
Proof. by apply length_required_exception. Defined.

(** X17: a 400 from a server that requires the Host header, against a
    request without Host header accepted by a server that does not
    require it, ends the comparison of the pair, in either order. *)
Theorem missing_host_exception (rej acc : Server) (p : HTTPResponse) (q : HTTPRequest) :
  code p = "400" → allows_missing_host_header rej = false →
  allows_missing_host_header acc = true → has_header q "host" = false →
  compare_entries rej acc (Some (Response p)) (Some (Request q)) = Break
  ∧ compare_entries acc rej (Some (Request q)) (Some (Response p)) = Break.
Proof.
  intros Hc Hrej Hacc Hh.
  split; open_rejection;
    rewrite Hrej, Hacc, Hh, (bool_decide_eq_true_2 _ Hc); some_test_holds.
Qed.

Lemma missing_host_exception_witness :
  compare_entries requires_host plain_server
    (Some (Response (status "400"))) (Some (Request (get_request [("Accept", "*")])))
  = Break
  ∧ compare_entries plain_server requires_host
      (Some (Request (get_request [("Accept", "*")]))) (Some (Response (status "400")))
    = Break.
Proof. by apply missing_host_exception. Defined.

(** X18: a response of any status from a server with a method whitelist,
    against an accepted request whose method is not on the list, ends the
    comparison of the pair, in either order. *)
Theorem method_whitelist_exception (rej acc : Server) (wl : list bytes)
    (p : HTTPResponse) (q : HTTPRequest) :
  method_whitelist rej = Some wl → method q ∉ wl →
  compare_entries rej acc (Some (Response p)) (Some (Request q)) = Break
  ∧ compare_entries acc rej (Some (Request q)) (Some (Response p)) = Break.
Proof.
  intros Hwl Hq.
  split; open_rejection; rewrite Hwl, (bool_decide_eq_false_2 _ Hq);
    rewrite ?orb_true_r; some_test_holds.
Qed.

Lemma method_whitelist_exception_witness :
  compare_entries get_only plain_server
    (Some (Response (status "405"))) (Some (Request (post_request []))) = Break
  ∧ compare_entries plain_server get_only
      (Some (Request (post_request []))) (Some (Response (status "405"))) = Break.
Proof.
  apply (method_whitelist_exception get_only plain_server ["GET"]); [done|].
  simpl. intros Hin. by apply list_elem_of_singleton in Hin.
Defined.

(** X19: a response of any status from a server with a blacklist of
    method bytes, against an accepted request whose method has one of
    them, ends the comparison of the pair, in either order. *)
Theorem method_blacklist_exception (rej acc : Server) (p : HTTPResponse) (q : HTTPRequest) :
  has_blacklisted_byte (method_character_blacklist rej) (method q) = true →
  compare_entries rej acc (Some (Response p)) (Some (Request q)) = Break
  ∧ compare_entries acc rej (Some (Request q)) (Some (Response p)) = Break.
Proof.
  intros Hb. split; open_rejection; rewrite Hb, ?orb_true_r; some_test_holds.
Qed.

Lemma method_blacklist_exception_witness :
  compare_entries no_at_sign plain_server
    (Some (Response (status "400"))) (Some (Request (request_with_method "G@T"))) = Break
  ∧ compare_entries plain_server no_at_sign
      (Some (Request (request_with_method "G@T"))) (Some (Response (status "400"))) = Break.
Proof. by apply method_blacklist_exception. Defined.

(** X15: an absent entry against a response of status 400 ends the
    comparison of the pair: whatever the two servers produced at later
    positions is not compared. *)
Theorem clean_end_stops_pair s1 s2 (p : HTTPResponse) (rs : list (entry * entry)) :
  code p = "400" →
  compare_positions s1 s2 ((None, Some (Response p)) :: rs) = None
  ∧ compare_positions s1 s2 ((Some (Response p), None) :: rs) = None.
Proof.
  intros Hc. cbn [compare_positions]. rewrite !compare_entries_table.
  unfold code_is. by rewrite (bool_decide_eq_true_2 _ Hc).
Qed.

Lemma clean_end_stops_pair_witness :
  compare_positions plain_server plain_server
    [(None, Some (Response (status "400")));
     (Some (Request (get_request [("Host", "a")])),
      Some (Request (get_request [("Host", "b")])))]
  = None
  ∧ compare_positions plain_server plain_server
      [(Some (Response (status "400")), None);
       (Some (Request (get_request [("Host", "a")])),
        Some (Request (get_request [("Host", "b")])))]
    = None.
Proof. by apply clean_end_stops_pair. Defined.

End exceptions.

(** ** Several servers *)

Section pairs.

Lemma compare_entries_not_NO s1 s2 (r1 r2 : entry) :
  compare_entries s1 s2 r1 r2 ≠ Return NO_DISCREPANCY.
Proof.
  rewrite compare_entries_table.
  destruct r1 as [[q1|p1]|], r2 as [[q2|p2]|]; try done;
    try (by case_bool_decide); try (by destruct (code_is _ _));
    by match goal with
       | |- compare_rejection ?a ?b ?x ?y ≠ _ =>
           destruct (compare_rejection_cases a b x y) as [-> | ->]
       end.
Qed.

Lemma compare_positions_not_NO s1 s2 (rs : list (entry * entry)) :
  compare_positions s1 s2 rs ≠ Some NO_DISCREPANCY.
Proof.
  induction rs as [|[r1 r2] rs IH]; simpl; [done|].
  pose proof (compare_entries_not_NO s1 s2 r1 r2) as Hne.
  destruct (compare_entries s1 s2 r1 r2); [done..|]. congruence.
Qed.

(** A pair of servers is never reported with [NO_DISCREPANCY]: the outer
    loop goes on to the next pair instead. *)
Lemma compare_pair_not_NO p1 p2 : compare_pair p1 p2 ≠ Some NO_DISCREPANCY.
Proof.
  destruct p1 as [pts1 s1], p2 as [pts2 s2]. unfold compare_pair.
  destruct (_ || _); apply compare_positions_not_NO.
Qed.

Lemma compare_pairs_NO_iff ps :
  compare_pairs ps = NO_DISCREPANCY ↔ ∀ p1 p2, (p1, p2) ∈ ps → compare_pair p1 p2 = None.
Proof.
  induction ps as [|[p1 p2] ps IH]; cbn [compare_pairs].
  - split; [|done]. by intros _ ?? ?%elem_of_nil.
  - pose proof (compare_pair_not_NO p1 p2) as Hne.
    destruct (compare_pair p1 p2) as [d|] eqn:Hd.
    + split; [congruence|]. intros Hall. specialize (Hall p1 p2 (list_elem_of_here _ _)).
      congruence.
    + rewrite IH. split.
      * intros Hall q1 q2 [[= -> ->] | Hin]%elem_of_cons; auto.
      * intros Hall q1 q2 Hin. apply Hall. by right.
Qed.

Lemma compare_pairs_found ps :
  compare_pairs ps = NO_DISCREPANCY
  ∨ ∃ p1 p2, (p1, p2) ∈ ps ∧ compare_pair p1 p2 = Some (compare_pairs ps).
Proof.
  induction ps as [|[p1 p2] ps IH]; cbn [compare_pairs]; [by left|].
  destruct (compare_pair p1 p2) as [d|] eqn:Hd.
  - right. exists p1, p2. split; [by left | done].
  - destruct IH as [-> | (q1 & q2 & Hin & Hq)]; [by left|].
    right. exists q1, q2. split; [by right | done].
Qed.

(** [itertools.combinations(l, 2)] has the pairs of two items of [l], the
    first of them at the smaller index. *)
Lemma elem_of_combinations2 {A} (l : list A) (x y : A) :
  (x, y) ∈ combinations2 l ↔ ∃ i j, i < j ∧ l !! i = Some x ∧ l !! j = Some y.
Proof.
  induction l as [|a l IH]; simpl.
  - split; [by intros ?%elem_of_nil | by intros (? & ? & ? & ? & ?)].
  - rewrite elem_of_app, IH, list_elem_of_In, in_map_iff. split.
    + intros [(z & [= -> ->] & Hz%list_elem_of_In) | (i & j & Hij & Hi & Hj)].
      * apply list_elem_of_lookup in Hz as [j Hj]. exists 0, (S j). by auto with lia.
      * exists (S i), (S j). by auto with lia.
    + intros (i & j & Hij & Hi & Hj). destruct j as [|j]; [lia|]. simpl in Hj.
      destruct i as [|i]; simpl in Hi.
      * left. exists y. injection Hi as ->. split; [done|].
        apply list_elem_of_In, list_elem_of_lookup. by exists j.
      * right. exists i, j. by auto with lia.
Qed.

Lemma categorize_discrepancy_two_NO (pts1 pts2 : list entry) s1 s2 :
  categorize_discrepancy [pts1; pts2] [s1; s2] = NO_DISCREPANCY
  ↔ compare_pair (pts1, s1) (pts2, s2) = None.
Proof.
  rewrite categorize_discrepancy_two.
  pose proof (compare_pair_not_NO (pts1, s1) (pts2, s2)) as Hne.
  destruct (compare_pair (pts1, s1) (pts2, s2)); simpl; split; congruence.
Qed.

(** X4: the verdict for several servers is [NO_DISCREPANCY] exactly when
    it is for every two of them, taken in the order of the list. *)
Theorem no_discrepancy_iff_every_pair
    (parse_trees : list (list entry)) (servers : list Server) :
  categorize_discrepancy parse_trees servers = NO_DISCREPANCY
  ↔ ∀ i j pts1 s1 pts2 s2,
      i < j →
      parse_trees !! i = Some pts1 → servers !! i = Some s1 →
      parse_trees !! j = Some pts2 → servers !! j = Some s2 →
      categorize_discrepancy [pts1; pts2] [s1; s2] = NO_DISCREPANCY.
Proof.
  unfold categorize_discrepancy at 1. rewrite compare_pairs_NO_iff. split.
  - intros Hall i j pts1 s1 pts2 s2 Hij H1 H1' H2 H2'.
    apply categorize_discrepancy_two_NO, Hall, elem_of_combinations2.
    exists i, j. split; [done|].
    split; apply lookup_zip_with_Some; eauto.
  - intros Hall [pts1 s1] [pts2 s2] (i & j & Hij & Hi & Hj)%elem_of_combinations2.
    apply lookup_zip_with_Some in Hi as (? & ? & [= <- <-] & ? & ?).
    apply lookup_zip_with_Some in Hj as (? & ? & [= <- <-] & ? & ?).
    apply categorize_discrepancy_two_NO. eauto.
Qed.

(** X5: a verdict other than [NO_DISCREPANCY] is the verdict of two of
    the servers. *)
Theorem verdict_of_some_pair
    (parse_trees : list (list entry)) (servers : list Server) :
  categorize_discrepancy parse_trees servers = NO_DISCREPANCY
  ∨ ∃ i j pts1 s1 pts2 s2,
      i < j
      ∧ parse_trees !! i = Some pts1 ∧ servers !! i = Some s1
      ∧ parse_trees !! j = Some pts2 ∧ servers !! j = Some s2
      ∧ categorize_discrepancy [pts1; pts2] [s1; s2]
        = categorize_discrepancy parse_trees servers.
Proof.
  unfold categorize_discrepancy at 1 3.
  destruct (compare_pairs_found (combinations2 (zip parse_trees servers)))
    as [? | ([pts1 s1] & [pts2 s2] & (i & j & Hij & Hi & Hj)%elem_of_combinations2 & Hd)];
    [by left | right].
  apply lookup_zip_with_Some in Hi as (? & ? & [= <- <-] & ? & ?).
  apply lookup_zip_with_Some in Hj as (? & ? & [= <- <-] & ? & ?).
  exists i, j, pts1, s1, pts2, s2. repeat (split; [done|]).
  by rewrite categorize_discrepancy_two, Hd.
Qed.

(** X20: servers added at the end of the two lists never hide a
    discrepancy between the servers that were there. *)
Theorem more_servers_keep_discrepancy
    (parse_trees parse_trees' : list (list entry)) (servers servers' : list Server) :
  length parse_trees = length servers →
  categorize_discrepancy parse_trees servers ≠ NO_DISCREPANCY →
  categorize_discrepancy (parse_trees ++ parse_trees') (servers ++ servers')
  ≠ NO_DISCREPANCY.
Proof.
  intros Hlen Hd Hd'. apply Hd. unfold categorize_discrepancy in *.
  rewrite compare_pairs_NO_iff in *.
  intros p1 p2 (i & j & Hij & Hi & Hj)%elem_of_combinations2.
  apply Hd', elem_of_combinations2. exists i, j. split; [done|].
  rewrite zip_with_app by done.
  split; apply lookup_app_l_Some; done.
Qed.

Lemma more_servers_keep_discrepancy_witness :
  categorize_discrepancy
    ([[Some (Request (get_request [("Host", "a")]))];
      [Some (Request (get_request [("Host", "b")]))]]
     ++ [[Some (Request (get_request [("Host", "a")]))]])
    ([plain_server; plain_server] ++ [no_persistence])
  ≠ NO_DISCREPANCY.
Proof. apply more_servers_keep_discrepancy; [done|]. by vm_compute. Defined.

End pairs.

(** ** The order of headers *)

Section header_order_of_requests.

Lemma zip_longest_Forall2 {A B} (R : option A → option B → Prop)
    (l1 l2 : list (option A)) (k1 k2 : list (option B)) :
  R None None → Forall2 R l1 k1 → Forall2 R l2 k2 →
  Forall2 (λ a b, R a.1 b.1 ∧ R a.2 b.2) (zip_longest l1 l2) (zip_longest k1 k2).
Proof.
  intros HN H1. revert l2 k2.
  induction H1 as [|x y l1 k1 Hxy H1 IH]; intros l2 k2 H2; simpl.
  - induction H2; simpl; constructor; by simpl.
  - destruct H2 as [|x' y' l2 k2 Hxy' H2]; constructor; simpl; auto.
    clear IH. induction H1; simpl; constructor; by simpl.
Qed.

Lemma compare_positions_same s1 s2 (rs rs' : list (entry * entry)) :
  Forall2 (λ a b, same_entry a.1 b.1 ∧ same_entry a.2 b.2) rs rs' →
  compare_positions s1 s2 rs = compare_positions s1 s2 rs'.
Proof.
  induction 1 as [|[r1 r2] [r1' r2'] rs rs' [H1 H2] _ IH]; simpl in *; [done|].
  by rewrite (compare_entries_same s1 s2 r1 r1' r2 r2' H1 H2), IH.
Qed.

Lemma compare_pair_same (pts1 pts1' pts2 pts2' : list entry) s1 s2 :
  Forall2 same_entry pts1 pts1' → Forall2 same_entry pts2 pts2' →
  compare_pair (pts1, s1) (pts2, s2) = compare_pair (pts1', s1) (pts2', s2).
Proof.
  intros H1 H2. unfold compare_pair.
  destruct (doesnt_support_persistence s1 || doesnt_support_persistence s2);
    apply compare_positions_same, (zip_longest_Forall2 same_entry);
    done || by apply Forall2_take.
Qed.

Lemma compare_pairs_same ps ps' :
  Forall2 (λ a b, (Forall2 same_entry a.1.1 b.1.1 ∧ a.1.2 = b.1.2)
                  ∧ (Forall2 same_entry a.2.1 b.2.1 ∧ a.2.2 = b.2.2)) ps ps' →
  compare_pairs ps = compare_pairs ps'.
Proof.
  induction 1 as [|[[a1 s1] [a2 s2]] [[b1 t1] [b2 t2]] ps ps' [[H1 E1] [H2 E2]] _ IH];
    cbn [compare_pairs]; [done|].
  simpl in H1, E1, H2, E2; subst.
  by rewrite (compare_pair_same a1 b1 a2 b2 t1 t2 H1 H2), IH.
Qed.

Lemma zip_Forall2_same (pts pts' : list (list entry)) (servers : list Server) :
  Forall2 (Forall2 same_entry) pts pts' →
  Forall2 (λ a b, Forall2 same_entry a.1 b.1 ∧ a.2 = b.2)
          (zip pts servers) (zip pts' servers).
Proof.
  intros H. revert servers.
  induction H as [|a b pts pts' Hab H IH]; intros [|s servers]; simpl;
    constructor; by auto.
Qed.

(** X6: the verdict does not depend on the order in which the requests
    list their headers. *)
Theorem verdict_up_to_header_order
    (parse_trees parse_trees' : list (list entry)) (servers : list Server) :
  Forall2 (Forall2 same_entry) parse_trees parse_trees' →
  categorize_discrepancy parse_trees servers
  = categorize_discrepancy parse_trees' servers.
Proof.
  intros H. apply compare_pairs_same.
  apply (combinations2_holds (λ a b, Forall2 same_entry a.1 b.1 ∧ a.2 = b.2)).
  by apply zip_Forall2_same.
Qed.

Lemma verdict_up_to_header_order_witness :
  categorize_discrepancy
    [[Some (Request (get_request [("Host", "a"); ("Accept", "*")]))];
     [Some (Request (get_request [("Host", "b")]))]]
    [plain_server; plain_server]
  = categorize_discrepancy
      [[Some (Request (get_request [("Accept", "*"); ("Host", "a")]))];
       [Some (Request (get_request [("Host", "b")]))]]
      [plain_server; plain_server].
Proof.
  apply verdict_up_to_header_order.
  repeat constructor.
Defined.

Lemma categorize_discrepancy_swap_witness :
  categorize_discrepancy
    [[Some (Request (post_request []))]; [Some (Response (status "411"))]]
    [plain_server; requires_length]
  = categorize_discrepancy
      [[Some (Response (status "411"))]; [Some (Request (post_request []))]]
      [requires_length; plain_server].
Proof. by apply categorize_discrepancy_swap. Defined.

End header_order_of_requests.

(** * Further properties of [normalize_request] *)

Section normalized_value.

(** X10: normalisation changes the headers only, and leaves them sorted
    by name and then by value. *)
Theorem normalize_request_keeps_request_line (r : HTTPRequest) (s1 s2 : Server) :
  method (normalize_request r s1 s2) = method r
  ∧ uri (normalize_request r s1 s2) = uri r
  ∧ version (normalize_request r s1 s2) = version r
  ∧ body (normalize_request r s1 s2) = body r
  ∧ StronglySorted header_le (headers (normalize_request r s1 s2)).
Proof.
  rewrite normalize_request_eq. repeat split.
  apply Sorted_StronglySorted; [apply _|]. apply Sorted_sort_headers.
Qed.


(** X12: when the second profile translates no header name, no header of
    the normalised request has a name that was to be removed. *)
Theorem normalize_request_removes (r : HTTPRequest) (s1 s2 : Server) :
  size (header_name_translation s2) = 0 →
  Forall (λ h, removed_by s1 s2 h.1 = false) (headers (normalize_request r s1 s2)).
Proof.
  intros Hsize. rewrite normalize_request_eq. cbn [headers with_headers].
  rewrite sort_headers_Permutation, Hsize. simpl.
  apply Forall_forall. intros h [_ Hk]%list_elem_of_In%filter_In.
  by apply negb_true_iff in Hk.
Qed.

Lemma normalize_request_removes_witness :
  Forall (λ h, removed_by removes_b plain_server h.1 = false)
         (headers (normalize_request (get_request [("B", "1"); ("a", "2"); ("b", "3")])
                     removes_b plain_server)).
Proof. by apply normalize_request_removes. Defined.

(** X13: when the second profile translates no header name, normalising
    twice gives what normalising once gives. *)
Theorem normalize_request_idempotent_without_translation
    (r : HTTPRequest) (s1 s2 : Server) :
  size (header_name_translation s2) = 0 →
  normalize_request (normalize_request r s1 s2) s1 s2 = normalize_request r s1 s2.
Proof.
  intros Hsize. rewrite !normalize_request_eq, Hsize. simpl.
  unfold with_headers; simpl. f_equal.
  rewrite (filter_all _ (sort_headers _)).
  - apply sort_headers_idemp.
  - intros h Hh. rewrite sort_headers_Permutation in Hh.
    by apply list_elem_of_In, filter_In in Hh as [_ Hk].
Qed.

Lemma normalize_request_idempotent_without_translation_witness :
  normalize_request
    (normalize_request (get_request [("B", "1"); ("a", "2"); ("b", "3")])
       removes_b plain_server)
    removes_b plain_server
  = normalize_request (get_request [("B", "1"); ("a", "2"); ("b", "3")])
      removes_b plain_server.
Proof. by apply normalize_request_idempotent_without_translation. Defined.

End normalized_value.

(** * Further properties of the runs on a store *)

Section runs.

(** X8: a call of [normalize_request] on a request of the store returns;
    the object it returns holds the normalised request; no object is taken
    from the store; every object but the argument is as it was, and the
    argument is as it was up to the order of its headers. *)
Theorem normalize_request_st_frame (l : ref) (s1 s2 : Server) (σ : store) (q : HTTPRequest) :
  σ !! l = Some (Request q) →
  ∃ l' σ',
    normalize_request_st l s1 s2 σ = Some (l', σ')
    ∧ σ' !! l' = Some (Request (normalize_request q s1 s2))
    ∧ length σ ≤ length σ'
    ∧ (∀ i m, i ≠ l → σ !! i = Some m → σ' !! i = Some m)
    ∧ ∃ q', σ' !! l = Some (Request q') ∧ same_request q q'.
Proof.
  intros Hl.
  destruct (normalize_request_st_spec l s1 s2 σ q Hl)
    as (l' & σ' & Hrun & Hl' & Hcase & _).
  exists l', σ'. split; [done|]. split; [done|].
  assert (l < length σ) by (by eapply lookup_lt_Some).
  destruct Hcase as [(-> & -> & _) | (Hlen & ext & ->)].
  - split; [by rewrite length_insert|]. split.
    + intros i m Hne Hi. by rewrite list_lookup_insert_ne.
    + exists (sort_request q). split; [by rewrite list_lookup_insert_eq|].
      apply sort_request_same.
  - split; [rewrite length_app; lia|]. split.
    + intros i m _ Hi. rewrite lookup_app_l; [done | by eapply lookup_lt_Some].
    + exists q. split; [by rewrite lookup_app_l | done].
Qed.

Lemma normalize_request_st_frame_witness :
  ∃ l' σ',
    normalize_request_st 1 removes_b plain_server
      [Response (status "400"); Request (get_request [("b", "1"); ("a", "2")])]
    = Some (l', σ')
    ∧ σ' !! l'
      = Some (Request (normalize_request (get_request [("b", "1"); ("a", "2")])
                         removes_b plain_server))
    ∧ length [Response (status "400"); Request (get_request [("b", "1"); ("a", "2")])]
      ≤ length σ'
    ∧ (∀ i m, i ≠ 1 →
         [Response (status "400"); Request (get_request [("b", "1"); ("a", "2")])] !! i
         = Some m →
         σ' !! i = Some m)
    ∧ ∃ q', σ' !! 1 = Some (Request q')
            ∧ same_request (get_request [("b", "1"); ("a", "2")]) q'.
Proof. by apply normalize_request_st_frame. Defined.

Lemma normalize_request_st_fresh_witness :
  ∃ l' ext,
    normalize_request_st 0 removes_b plain_server
      [Request (get_request [("b", "1"); ("a", "2")])]
    = Some (l', [Request (get_request [("b", "1"); ("a", "2")])] ++ ext)
    ∧ length [Request (get_request [("b", "1"); ("a", "2")])] ≤ l'
    ∧ ([Request (get_request [("b", "1"); ("a", "2")])] ++ ext) !! l'
      = Some (Request (normalize_request (get_request [("b", "1"); ("a", "2")])
                         removes_b plain_server))
    ∧ ∀ i m, [Request (get_request [("b", "1"); ("a", "2")])] !! i = Some m →
             ([Request (get_request [("b", "1"); ("a", "2")])] ++ ext) !! i = Some m.
Proof. apply normalize_request_st_fresh; [done|]. left. by vm_compute. Defined.

Lemma categorize_discrepancy_st_verdict_witness :
  ∃ σ',
    categorize_discrepancy_st [[Some 0; None]; [Some 1]] [plain_server; plain_server]
      [Request (get_request [("b", "1"); ("a", "2")]);
       Request (get_request [("a", "2"); ("b", "1")])]
    = Some (categorize_discrepancy
              [[Some (Request (get_request [("b", "1"); ("a", "2")])); None];
               [Some (Request (get_request [("a", "2"); ("b", "1")]))]]
              [plain_server; plain_server], σ')
    ∧ store_le [Request (get_request [("b", "1"); ("a", "2")]);
                Request (get_request [("a", "2"); ("b", "1")])] σ'.
Proof.
  apply categorize_discrepancy_st_verdict.
  repeat constructor; eexists; (split; [reflexivity|]); simpl; reflexivity.
Defined.

End runs.

(** * Edge cases of the classifier *)

Section edge_cases.

(** X21: a server that produced nothing against a server that produced a
    message: a stream discrepancy, unless the message is a response of
    status 400, whatever the profiles and the later messages are. *)
Theorem nothing_against_something s1 s2 (m : message) (rest : list entry) :
  compare_pair (Some m :: rest, s1) ([], s2)
  = (if response_and (Some m) (code_is "400") then None else Some STREAM_DISCREPANCY)
  ∧ compare_pair ([], s1) (Some m :: rest, s2)
    = (if response_and (Some m) (code_is "400") then None else Some STREAM_DISCREPANCY).
Proof.
  unfold compare_pair.
  split; destruct (doesnt_support_persistence s1 || doesnt_support_persistence s2);
    cbn [take zip_longest map compare_positions];
    rewrite compare_entries_table; destruct m as [q|p]; simpl; try done;
    by destruct (code_is "400" p).
Qed.

(** What holds of every sequence holds of the two sequences of a pair. *)
Lemma categorize_discrepancy_NO_of_pairs (P : list entry → Prop)
    (parse_trees : list (list entry)) (servers : list Server) :
  Forall P parse_trees →
  (∀ pts1 pts2 s1 s2, P pts1 → P pts2 → compare_pair (pts1, s1) (pts2, s2) = None) →
  categorize_discrepancy parse_trees servers = NO_DISCREPANCY.
Proof.
  intros HP Hpair. unfold categorize_discrepancy. apply compare_pairs_NO_iff.
  intros [pts1 s1] [pts2 s2] (i & j & _ & Hi & Hj)%elem_of_combinations2.
  apply lookup_zip_with_Some in Hi as (? & ? & [= <- <-] & Hi & _).
  apply lookup_zip_with_Some in Hj as (? & ? & [= <- <-] & Hj & _).
  rewrite Forall_forall in HP.
  apply Hpair; apply HP, list_elem_of_lookup; eauto.
Qed.

(** X22: servers that produced nothing, or absent entries only, do not
    disagree, however many they are. *)
Theorem all_absent_no_discrepancy
    (parse_trees : list (list entry)) (servers : list Server) :
  Forall (Forall (λ r, r = None)) parse_trees →
  categorize_discrepancy parse_trees servers = NO_DISCREPANCY.
Proof.
  intros Hall.
  apply (categorize_discrepancy_NO_of_pairs (Forall (λ r, r = None))); [done|].
  intros pts1 pts2 s1 s2 H1 H2. unfold compare_pair.
  assert (Hnone : ∀ l1 l2 : list entry,
    Forall (λ r, r = None) l1 → Forall (λ r, r = None) l2 →
    compare_positions s1 s2 (zip_longest l1 l2) = None).
  { intros l1 l2 Hl1 Hl2.
    pose proof (Forall_zip_longest (λ r : entry, r = None) l1 l2 eq_refl Hl1 Hl2) as Hz.
    induction Hz as [|[r1 r2] rs [E1 E2] _ IH]; [done|].
    simpl in E1, E2; subst. cbn [compare_positions].
    by rewrite compare_entries_table. }
  destruct (_ || _); apply Hnone; done || by apply Forall_take.
Qed.

Lemma all_absent_no_discrepancy_witness :
  categorize_discrepancy [[]; [None]; [None; None]]
    [plain_server; requires_host; no_persistence]
  = NO_DISCREPANCY.
Proof. apply all_absent_no_discrepancy. repeat constructor. Defined.

Lemma compare_positions_responses s1 s2 (l1 l2 : list entry) :
  Forall (λ r, is_response r = true) l1 →
  Forall (λ r, is_response r = true) l2 →
  length l1 = length l2 →
  compare_positions s1 s2 (zip_longest l1 l2) = None.
Proof.
  intros H1. revert l2.
  induction H1 as [|r1 l1 Hr1 H1 IH]; intros l2 H2 Hlen;
    destruct H2 as [|r2 l2 Hr2 H2]; try done.
  cbn [zip_longest compare_positions]. rewrite compare_entries_table.
  destruct r1 as [[|]|], r2 as [[|]|]; try done.
  apply IH; [done|]. simpl in Hlen. lia.
Qed.

(** X23: servers that answered every message with a response, and as
    many messages each, do not disagree: the status codes of two
    responses are not compared. *)
Theorem all_rejected_no_discrepancy (n : nat)
    (parse_trees : list (list entry)) (servers : list Server) :
  Forall (λ pts, Forall (λ r, is_response r = true) pts ∧ length pts = n) parse_trees →
  categorize_discrepancy parse_trees servers = NO_DISCREPANCY.
Proof.
  intros Hall.
  apply (categorize_discrepancy_NO_of_pairs
           (λ pts, Forall (λ r, is_response r = true) pts ∧ length pts = n)); [done|].
  intros pts1 pts2 s1 s2 [H1 L1] [H2 L2]. unfold compare_pair.
  destruct (_ || _); apply compare_positions_responses;
    try done; try (by apply Forall_take);
    rewrite ?length_take; lia.
Qed.

Lemma all_rejected_no_discrepancy_witness :
  categorize_discrepancy
    [[Some (Response (status "400")); Some (Response (status "404"))];
     [Some (Response (status "500")); Some (Response (status "200"))];
     [Some (Response (status "411")); Some (Response (status "400"))]]
    [plain_server; requires_length; get_only]
  = NO_DISCREPANCY.
Proof. apply (all_rejected_no_discrepancy 2). repeat constructor. Defined.

(** X24: a request of version 0.9 accepted by the first server of a pair,
    against a response of the second server, whose profile does not allow
    HTTP/0.9, ends the comparison of the pair. *)
Theorem http_0_9_exception s1 s2 (q : HTTPRequest) (p : HTTPResponse) :
  version q = "0.9" → allows_http_0_9 s2 = false →
  compare_entries s1 s2 (Some (Request q)) (Some (Response p)) = Break.
Proof.
  intros Hv H09. rewrite compare_entries_table. unfold compare_rejection; simpl.
  by rewrite (bool_decide_eq_true_2 _ Hv), H09.
Qed.

Lemma http_0_9_exception_witness :
  compare_entries plain_server no_http_0_9
    (Some (Request http_0_9_request)) (Some (Response (status "505"))) = Break.
Proof. by apply http_0_9_exception. Defined.

Lemma normalize_request_no_quirks r s1 s2 :
  removal_keys s1 s2 = [] → size (header_name_translation s2) = 0 →
  normalize_request r s1 s2 = sort_request r.
Proof.
  intros Hks Hsize. rewrite normalize_request_eq. unfold removed_by.
  rewrite Hks, Hsize. simpl. by rewrite filter_all.
Qed.

Lemma sort_request_eq_same q1 q2 : sort_request q1 = sort_request q2 ↔ same_request q1 q2.
Proof.
  split.
  - intros [= Hm Hu Hv Hs Hb]. unfold same_request. repeat split; try done.
    by rewrite <- (sort_headers_Permutation (headers q1)), Hs, sort_headers_Permutation.
  - intros (Hm & Hu & Hv & Hb & Hp). unfold sort_request, with_headers.
    by rewrite Hm, Hu, Hv, Hb, (sort_headers_perm _ _ Hp).
Qed.

(** X25: between two profiles that remove and translate no header, two
    accepted requests let the loop go on exactly when they differ in the
    order of their headers at most, and are a subtle discrepancy
    otherwise. *)
Theorem accepted_requests_without_quirks s1 s2 (q1 q2 : HTTPRequest) :
  removal_keys s1 s2 = [] → removal_keys s2 s1 = [] →
  size (header_name_translation s1) = 0 → size (header_name_translation s2) = 0 →
  (compare_entries s1 s2 (Some (Request q1)) (Some (Request q2)) = Next
   ↔ same_request q1 q2)
  ∧ (compare_entries s1 s2 (Some (Request q1)) (Some (Request q2))
     = Return SUBTLE_DISCREPANCY
     ↔ ¬ same_request q1 q2).
Proof.
  intros Hk12 Hk21 Hs1 Hs2. rewrite compare_entries_table.
  rewrite (normalize_request_no_quirks q1 s1 s2), (normalize_request_no_quirks q2 s2 s1)
    by done.
  rewrite <- sort_request_eq_same.
  case_bool_decide; split; split; try done; intros H'; by destruct H'.
Qed.

Lemma accepted_requests_without_quirks_witness :
  (compare_entries plain_server no_persistence
     (Some (Request (get_request [("b", "1"); ("a", "2")])))
     (Some (Request (get_request [("a", "2"); ("b", "1")]))) = Next
   ↔ same_request (get_request [("b", "1"); ("a", "2")])
                  (get_request [("a", "2"); ("b", "1")]))
  ∧ (compare_entries plain_server no_persistence
       (Some (Request (get_request [("b", "1"); ("a", "2")])))
       (Some (Request (get_request [("a", "2"); ("b", "1")])))
     = Return SUBTLE_DISCREPANCY
     ↔ ¬ same_request (get_request [("b", "1"); ("a", "2")])
                      (get_request [("a", "2"); ("b", "1")])).
Proof. by apply accepted_requests_without_quirks. Defined.

End edge_cases.
